(** * MCQ Creator: the response validator, the JSON export and the wizard

    A shallow embedding of [mcq_generator_app.py].  The program asks a hosted
    language model for multiple-choice questions, cleans the text it gets
    back, decodes it as JSON, keeps the elements that have the shape of a
    question, and offers the result for download.

    Python data is modelled as Python has it:
    - a [str] is a sequence of Unicode code points ([pystr]);
    - the values [json.loads] builds are [None], [bool], [int], [float],
      [str], [list] and [dict] ([value]); a [dict] keeps its keys in
      insertion order, so it is an association list;
    - [st.error], [st.info] and [st.success] are recorded in a log;
    - exceptions are explicit results. *)

From Stdlib Require Import String Ascii.
From Stdlib Require Import List ZArith NArith Bool Lia Sorting.Sorted.
Import ListNotations.

Set Implicit Arguments.
Set Warnings "-register-all".
Local Open Scope N_scope.

(* ================================================================== *)
(** ** Python strings *)

Module Py.

(** A code point, and a [str]. *)
Definition char := N.
Definition pystr := list char.

(** A literal of the source, written as a Rocq string of ASCII characters. *)
Definition lit (s : string) : pystr :=
  List.map N_of_ascii (list_ascii_of_string s).

Definition char_eqb (a b : char) : bool := N.eqb a b.

Fixpoint str_eqb (s t : pystr) : bool :=
  match s, t with
  | [], [] => true
  | a :: s', b :: t' => char_eqb a b && str_eqb s' t'
  | _, _ => false
  end.

(** [str.isspace] on one code point: the characters CPython's
    [_PyUnicode_IsWhitespace] lists. *)
Definition isspace (c : char) : bool :=
  ((9 <=? c) && (c <=? 13)) || ((28 <=? c) && (c <=? 32))
  || (c =? 133) || (c =? 160) || (c =? 5760)
  || ((8192 <=? c) && (c <=? 8202))
  || (c =? 8232) || (c =? 8233) || (c =? 8239) || (c =? 8287) || (c =? 12288).

(** [s.lstrip()]. *)
Fixpoint lstrip (s : pystr) : pystr :=
  match s with
  | [] => []
  | c :: s' => if isspace c then lstrip s' else s
  end.

(** [s.rstrip()]: a character is dropped when it is white space and
    everything after it has been dropped. *)
Fixpoint rstrip (s : pystr) : pystr :=
  match s with
  | [] => []
  | c :: s' =>
      match rstrip s' with
      | [] => if isspace c then [] else [c]
      | r => c :: r
      end
  end.

(** [s.strip()]. *)
Definition strip (s : pystr) : pystr := rstrip (lstrip s).

(** [s.startswith(p)]. *)
Fixpoint startswith (s p : pystr) : bool :=
  match p, s with
  | [], _ => true
  | _ :: _, [] => false
  | a :: p', b :: s' => char_eqb a b && startswith s' p'
  end.

(** [s.endswith(p)]. *)
Definition endswith (s p : pystr) : bool :=
  startswith (rev s) (rev p).

(** [s[n:]] for [n >= 0]. *)
Definition slice_from (n : nat) (s : pystr) : pystr := skipn n s.

(** [s[:n]] for [n >= 0]. *)
Definition slice_to (n : nat) (s : pystr) : pystr := firstn n s.

(** [s[:-n]] for [n > 0]: everything but the last [n] characters, and the
    empty string when there are fewer than [n]. *)
Definition slice_to_neg (n : nat) (s : pystr) : pystr :=
  firstn (length s - n) s.

(** One of the digits [0] to [9]. *)
Definition is_digit (c : char) : bool := (48 <=? c) && (c <=? 57).

(** Truth value of a [str]. *)
Definition truthy (s : pystr) : bool :=
  match s with [] => false | _ => true end.

(** [str(n)] for a natural number, most significant digit first. *)
Fixpoint digits_fuel (fuel : nat) (n : N) (acc : pystr) : pystr :=
  match fuel with
  | O => acc
  | S fuel' =>
      let acc' := (48 + n mod 10) :: acc in
      if n / 10 =? 0 then acc' else digits_fuel fuel' (n / 10) acc'
  end.

Definition str_of_N (n : N) : pystr :=
  digits_fuel (S (N.to_nat (N.log2 n))) n [].

(** [str(z)] for an [int]. *)
Definition str_of_Z (z : Z) : pystr :=
  match z with
  | Z0 => lit "0"
  | Zpos p => str_of_N (Npos p)
  | Zneg p => 45 :: str_of_N (Npos p)
  end.

End Py.
Import Py.

(* ================================================================== *)
(** ** Values *)

(** What [json.loads] can build.  The program does no arithmetic on floats:
    a float is kept as the literal it was read from. *)
Inductive value : Type :=
| VNone
| VBool (b : bool)
| VInt (z : Z)
| VFloat (literal : pystr)
| VStr (s : pystr)
| VList (items : list value)
| VDict (entries : list (pystr * value)).

(** A [dict] with [str] keys, in insertion order. *)
Definition dict := list (pystr * value).

(** [k in d]. *)
Fixpoint dict_contains (k : pystr) (d : dict) : bool :=
  match d with
  | [] => false
  | (k', _) :: d' => str_eqb k k' || dict_contains k d'
  end.

(** [d[k]], [None] standing for [KeyError]. *)
Fixpoint dict_get (k : pystr) (d : dict) : option value :=
  match d with
  | [] => None
  | (k', v) :: d' => if str_eqb k k' then Some v else dict_get k d'
  end.

(** [d[k] = v]: an existing key keeps its place and takes the new value, a
    new key goes to the end. *)
Fixpoint dict_set (k : pystr) (v : value) (d : dict) : dict :=
  match d with
  | [] => [(k, v)]
  | (k', v') :: d' =>
      if str_eqb k k' then (k', v) :: d' else (k', v') :: dict_set k v d'
  end.

(** [isinstance(v, dict)], [isinstance(v, list)] and [isinstance(v, int)].
    In Python [bool] is a subclass of [int], so [True] and [False] are
    instances of [int]. *)
Definition isinstance_dict (v : value) : bool :=
  match v with VDict _ => true | _ => false end.

Definition isinstance_list (v : value) : bool :=
  match v with VList _ => true | _ => false end.

Definition isinstance_int (v : value) : bool :=
  match v with VInt _ | VBool _ => true | _ => false end.

(** The number an instance of [int] stands for in a comparison. *)
Definition int_value (v : value) : option Z :=
  match v with
  | VInt z => Some z
  | VBool true => Some 1%Z
  | VBool false => Some 0%Z
  | _ => None
  end.

(** The name Python prints for the type of a value. *)
Definition type_name (v : value) : pystr :=
  match v with
  | VNone => lit "NoneType"
  | VBool _ => lit "bool"
  | VInt _ => lit "int"
  | VFloat _ => lit "float"
  | VStr _ => lit "str"
  | VList _ => lit "list"
  | VDict _ => lit "dict"
  end.

(* ================================================================== *)
(** ** What the program shows and what can go wrong *)

(** A call of [st.error], [st.info] or [st.success]. *)
Inductive ui_msg : Type :=
| St_error (text : pystr)
| St_info (text : pystr)
| St_success (text : pystr).

Definition ui_log := list ui_msg.

(** The outcome of [json.loads]: the decoded value, a [JSONDecodeError]
    with its [str(e)], or another exception with its [str(e)] (such as the
    [RecursionError] of a deeply nested input). *)
Inductive decoded : Type :=
| Decoded (v : value)
| JSONDecodeError (msg : pystr)
| DecodeRaises (msg : pystr).

(** The outcome of the call to the hosted model, lines 36 to 59 with
    [response.text]: the text, or an exception with its [str(e)].  The
    prompt the lines 39 to 55 build goes to the model and nowhere else. *)
Inductive api_result : Type :=
| ApiText (text : pystr)
| ApiRaises (msg : pystr).

(** A computation inside the outer [try]: it returns, or raises an
    exception that is not a [JSONDecodeError]. *)
Inductive attempt (A : Type) : Type :=
| Returned (a : A)
| Raised (msg : pystr).
Arguments Raised {A} msg.

(* ================================================================== *)
(** ** The literals of the source *)

Definition FENCE : pystr := lit "```".
Definition FENCE_JSON : pystr := lit "```json".
Definition KEY_QUESTION : pystr := lit "question".
Definition KEY_OPTIONS : pystr := lit "options".
Definition KEY_CORRECT_ANSWER : pystr := lit "correct_answer".
Definition KEY_EXPLANATION : pystr := lit "explanation".
Definition EXPLANATION_PLACEHOLDER : pystr := lit "Explanation not provided.".
Definition NEWLINE : pystr := [10].

Definition MSG_KEY_MISSING : pystr :=
  lit "Google Gemini API key is missing. Please add your API key to continue.".
Definition MSG_KEY_URL : pystr :=
  lit "Get your API key from: https://makersuite.google.com/app/apikey".
Definition MSG_NO_VALID : pystr :=
  lit "No valid questions were generated. Please try again.".
Definition MSG_CHECK_KEY : pystr :=
  lit "Please check your API key and internet connection.".

(** [f"Successfully generated {n} questions!"]. *)
Definition msg_success (n : nat) : pystr :=
  lit "Successfully generated " ++ str_of_N (N.of_nat n) ++ lit " questions!".

(** [f"JSON Parse error: {str(e)}"]. *)
Definition msg_parse_error (e : pystr) : pystr :=
  lit "JSON Parse error: " ++ e.

(** [f"Raw Gemini output:\n{content[:500]}..."]. *)
Definition msg_raw_output (content : pystr) : pystr :=
  lit "Raw Gemini output:" ++ NEWLINE ++ slice_to 500 content ++ lit "...".

(** [f"An error occurred with Google Gemini API: {str(e)}"]. *)
Definition msg_api_error (e : pystr) : pystr :=
  lit "An error occurred with Google Gemini API: " ++ e.

(** [str(e)] of the [TypeError] a [for] loop raises over a value that
    cannot be iterated. *)
Definition msg_not_iterable (v : value) : pystr :=
  [39] ++ type_name v ++ [39] ++ lit " object is not iterable".

(* ================================================================== *)
(** ** Cleaning the response (lines 60 to 69) *)

(** Lines 63 to 69, on the text line 60 has stripped. *)
Definition strip_fences (content : pystr) : pystr :=
  let content :=
    if startswith content FENCE_JSON then slice_from 7 content else content in
  let content :=
    if startswith content FENCE then slice_from 3 content else content in
  let content :=
    if endswith content FENCE then slice_to_neg 3 content else content in
  strip content.

(** Lines 60 to 69: the text that reaches [json.loads]. *)
Definition clean_response (text : pystr) : pystr :=
  strip_fences (strip text).

(* ================================================================== *)
(** ** Validating the elements (lines 75 to 90) *)

(** [q[k]] on a dict; the program reads a key only after [k in q]. *)
Definition subscript (d : dict) (k : pystr) : value :=
  match dict_get k d with
  | Some v => v
  | None => VNone
  end.

(** [len(v)]; the program takes the length of a list only. *)
Definition len (v : value) : nat :=
  match v with
  | VList items => List.length items
  | VDict d => List.length d
  | VStr s => List.length s
  | _ => O
  end.

(** [0 <= v < n] for an instance of [int]. *)
Definition index_in_range (v : value) (n : nat) : bool :=
  match int_value v with
  | Some z => (0 <=? z)%Z && (z <? Z.of_nat n)%Z
  | None => false
  end.

(** The condition of lines 77 to 84, test by test; [&&] stops at the first
    test that fails, as [and] does. *)
Definition is_valid_question (q : value) : bool :=
  match q with
  | VDict d =>
      dict_contains KEY_QUESTION d
      && dict_contains KEY_OPTIONS d
      && dict_contains KEY_CORRECT_ANSWER d
      && isinstance_list (subscript d KEY_OPTIONS)
      && (2 <=? len (subscript d KEY_OPTIONS))%nat
      && isinstance_int (subscript d KEY_CORRECT_ANSWER)
      && index_in_range (subscript d KEY_CORRECT_ANSWER)
                        (len (subscript d KEY_OPTIONS))
  | _ => false
  end.

(** Lines 87 and 88 on an accepted element. *)
Definition ensure_explanation (q : value) : value :=
  match q with
  | VDict d =>
      if negb (dict_contains KEY_EXPLANATION d)
      then VDict (dict_set KEY_EXPLANATION (VStr EXPLANATION_PLACEHOLDER) d)
      else q
  | _ => q
  end.

(** The objects of the decoded array are mutated in place and the list the
    function returns holds references to them.  The store gives the object
    at each position of the array; a reference is a position. *)
Record loop_state : Type := {
  objects : list value;
  validated_questions : list nat
}.

(** The object at position [i] replaced. *)
Fixpoint store_update (i : nat) (v : value) (objs : list value) : list value :=
  match objs, i with
  | [], _ => []
  | _ :: rest, O => v :: rest
  | o :: rest, S i' => o :: store_update i' v rest
  end.

(** One turn of the loop of line 76, on the object at position [i]. *)
Definition validate_step (st : loop_state) (i : nat) : loop_state :=
  match nth_error (objects st) i with
  | Some q =>
      if is_valid_question q
      then {| objects := store_update i (ensure_explanation q) (objects st);
              validated_questions := validated_questions st ++ [i] |}
      else st
  | None => st
  end.

(** Lines 75 to 90 over the elements of a list. *)
Definition validate_loop (questions : list value) : loop_state :=
  fold_left validate_step (seq 0 (List.length questions))
            {| objects := questions; validated_questions := [] |}.

(** The list the references stand for. *)
Definition deref (st : loop_state) : list value :=
  List.map (fun i => nth i (objects st) VNone) (validated_questions st).

Definition validate_questions (questions : list value) : list value :=
  deref (validate_loop questions).

(** What [for q in questions] runs over: the items of a list, the keys of
    a dict, the characters of a string; other values raise [TypeError]. *)
Definition iterate (v : value) : attempt (list value) :=
  match v with
  | VList items => Returned items
  | VDict d => Returned (List.map (fun kv => VStr (fst kv)) d)
  | VStr s => Returned (List.map (fun c => VStr [c]) s)
  | _ => Raised (msg_not_iterable v)
  end.

(* ================================================================== *)
(** ** The generator (lines 27 to 107) *)

Section Generator.

(** [json.loads] is the library's; the development holds for every decoder. *)
Variable json_loads : pystr -> decoded.

(** Lines 92 to 97. *)
Definition report (validated : list value) : ui_log * list value :=
  match validated with
  | [] => ([St_error MSG_NO_VALID], [])
  | _ :: _ => ([St_success (msg_success (List.length validated))], validated)
  end.

(** Lines 60 to 102 on the text of the response: the spec's
    [parseAndValidate].  It returns the log and the list, or raises what the
    handler of line 104 catches. *)
Definition parseAndValidate (text : pystr) : attempt (ui_log * list value) :=
  let content := clean_response text in
  match json_loads content with
  | Decoded questions =>
      match iterate questions with
      | Returned items => Returned (report (validate_questions items))
      | Raised e => Raised e
      end
  | JSONDecodeError e =>
      Returned ([St_error (msg_parse_error e);
                 St_error (msg_raw_output content)], [])
  | DecodeRaises e => Raised e
  end.

(** Lines 104 to 107. *)
Definition api_failure (e : pystr) : ui_log * list value :=
  ([St_error (msg_api_error e); St_info MSG_CHECK_KEY], []).

(** [not GOOGLE_API_KEY]: the key is [None] or the empty string. *)
Definition key_available (key : option pystr) : bool :=
  match key with
  | Some k => truthy k
  | None => false
  end.

Definition generate_questions_with_gemini
    (GOOGLE_API_KEY : option pystr) (response : api_result)
  : ui_log * list value :=
  if negb (key_available GOOGLE_API_KEY)
  then ([St_error MSG_KEY_MISSING; St_info MSG_KEY_URL], [])
  else
    match response with
    | ApiRaises e => api_failure e
    | ApiText text =>
        match parseAndValidate text with
        | Returned r => r
        | Raised e => api_failure e
        end
    end.

End Generator.

(* ================================================================== *)
(** ** A decoder to run the program on concrete texts *)

(** An executable decoder for the grammar [json.loads] accepts, after the
    scanner of CPython 3.12: the values it builds and, for a text it
    rejects, the message and the position of its [JSONDecodeError].  It is
    used to evaluate the program on concrete responses; the theorems hold
    for every decoder. *)
Module RefJson.

Inductive scan (A : Type) : Type :=
| Ok (a : A) (rest : pystr)
| Fail (msg : pystr) (at_rest : pystr)
| OutOfFuel.
Arguments Fail {A} msg at_rest.
Arguments OutOfFuel {A}.

Definition is_ws (c : char) : bool :=
  (c =? 32) || (c =? 9) || (c =? 10) || (c =? 13).

Fixpoint skip_ws (s : pystr) : pystr :=
  match s with
  | c :: s' => if is_ws c then skip_ws s' else s
  | [] => []
  end.

Fixpoint take_digits (s : pystr) : pystr * pystr :=
  match s with
  | c :: s' =>
      if is_digit c
      then let (ds, rest) := take_digits s' in (c :: ds, rest)
      else ([], s)
  | [] => ([], [])
  end.

Definition Z_of_digits (ds : pystr) : Z :=
  fold_left (fun a c => (10 * a + Z.of_N (c - 48))%Z) ds 0%Z.

(** The fraction [\.[0-9]+] when it is there. *)
Definition take_frac (s : pystr) : pystr * pystr :=
  match s with
  | 46 :: s' =>
      match take_digits s' with
      | ([], _) => ([], s)
      | (ds, rest) => (46 :: ds, rest)
      end
  | _ => ([], s)
  end.

(** The exponent [[eE][-+]?[0-9]+] when it is there. *)
Definition take_exp (s : pystr) : pystr * pystr :=
  match s with
  | e :: s' =>
      if (e =? 101) || (e =? 69) then
        let (sign, s'') :=
          match s' with
          | c :: r => if (c =? 45) || (c =? 43) then ([c], r) else ([], s')
          | [] => ([], s')
          end in
        match take_digits s'' with
        | ([], _) => ([], s)
        | (ds, rest) => (e :: sign ++ ds, rest)
        end
      else ([], s)
  | [] => ([], s)
  end.

(** A number: an optional minus sign, then a zero or a run of digits that
    does not start with a zero, then an optional fraction and exponent; an
    [int] when it has neither, a [float] otherwise. *)
Definition match_number (s : pystr) : option (value * pystr) :=
  let (sign, s1) :=
    match s with
    | 45 :: r => ([45], r)
    | _ => ([], s)
    end in
  let integer :=
    match s1 with
    | c :: r =>
        if c =? 48 then Some ([48], r)
        else if is_digit c then Some (take_digits s1)
        else None
    | [] => None
    end in
  match integer with
  | None => None
  | Some (ds, rest) =>
      let (frac, rest1) := take_frac rest in
      let (exp, rest2) := take_exp rest1 in
      match frac, exp with
      | [], [] =>
          Some (VInt (match sign with
                      | [] => Z_of_digits ds
                      | _ => - Z_of_digits ds
                      end)%Z, rest2)
      | _, _ => Some (VFloat (sign ++ ds ++ frac ++ exp), rest2)
      end
  end.

Definition hex_digit (c : char) : option N :=
  if is_digit c then Some (c - 48)
  else if (97 <=? c) && (c <=? 102) then Some (c - 87)
  else if (65 <=? c) && (c <=? 70) then Some (c - 55)
  else None.

(** Four hexadecimal digits. *)
Definition hex4 (s : pystr) : option (N * pystr) :=
  match s with
  | a :: b :: c :: d :: rest =>
      match hex_digit a, hex_digit b, hex_digit c, hex_digit d with
      | Some x, Some y, Some z, Some w =>
          Some (4096 * x + 256 * y + 16 * z + w, rest)
      | _, _, _, _ => None
      end
  | _ => None
  end.

(** The character a one-letter escape stands for. *)
Definition unescape (c : char) : option char :=
  if c =? 34 then Some 34
  else if c =? 92 then Some 92
  else if c =? 47 then Some 47
  else if c =? 98 then Some 8
  else if c =? 102 then Some 12
  else if c =? 110 then Some 10
  else if c =? 114 then Some 13
  else if c =? 116 then Some 9
  else None.

Definition is_high_surrogate (c : N) : bool := (55296 <=? c) && (c <=? 56319).
Definition is_low_surrogate (c : N) : bool := (56320 <=? c) && (c <=? 57343).

(** The [\uXXXX] escape after its [u]; a high surrogate followed by the
    escape of a low surrogate is one character. *)
Definition unicode_escape (s : pystr) : option (char * pystr) :=
  match hex4 s with
  | Some (hi, rest) =>
      match rest with
      | [] => None
      | _ :: _ =>
          if is_high_surrogate hi then
            match rest with
            | 92 :: 117 :: rest' =>
                match hex4 rest' with
                | Some (lo, (_ :: _) as rest'') =>
                    if is_low_surrogate lo
                    then Some (65536 + (hi - 55296) * 1024 + (lo - 56320),
                               rest'')
                    else Some (hi, rest)
                | _ => Some (hi, rest)
                end
            | _ => Some (hi, rest)
            end
          else Some (hi, rest)
      end
  | None => None
  end.

(** A string after its opening quote; [start] is the text from that quote
    on. *)
Fixpoint scanstring (fuel : nat) (start s acc : pystr) : scan pystr :=
  match fuel with
  | O => OutOfFuel
  | S fuel' =>
      match s with
      | [] => Fail (lit "Unterminated string starting at") start
      | c :: rest =>
          if c =? 34 then Ok (rev acc) rest
          else if c =? 92 then
            match rest with
            | [] => Fail (lit "Unterminated string starting at") start
            | e :: rest' =>
                if e =? 117 then
                  match unicode_escape rest' with
                  | Some (ch, rest'') => scanstring fuel' start rest'' (ch :: acc)
                  | None => Fail (lit "Invalid \uXXXX escape") rest
                  end
                else
                  match unescape e with
                  | Some ch => scanstring fuel' start rest' (ch :: acc)
                  | None => Fail (lit "Invalid \escape") s
                  end
            end
          else if c <=? 31 then Fail (lit "Invalid control character at") s
          else scanstring fuel' start rest (c :: acc)
      end
  end.

Definition EXPECTING_VALUE : pystr := lit "Expecting value".
Definition EXPECTING_COMMA : pystr := lit "Expecting ',' delimiter".
Definition EXPECTING_COLON : pystr := lit "Expecting ':' delimiter".
Definition EXPECTING_NAME : pystr :=
  lit "Expecting property name enclosed in double quotes".

(** [dict(pairs)]. *)
Definition dict_of_pairs (pairs : list (pystr * value)) : dict :=
  fold_left (fun d kv => dict_set (fst kv) (snd kv) d) pairs [].

(** One JSON term; the items of an array after [[] or [,]; the members of
    an object after [{] or [,]. *)
Fixpoint scan_once (fuel : nat) (s : pystr) : scan value :=
  match fuel with
  | O => OutOfFuel
  | S fuel' =>
      match s with
      | [] => Fail EXPECTING_VALUE s
      | c :: rest =>
          if c =? 34 then
            match scanstring (S (List.length rest)) s rest [] with
            | Ok str rest' => Ok (VStr str) rest'
            | Fail m a => Fail m a
            | OutOfFuel => OutOfFuel
            end
          else if c =? 123 then
            match skip_ws rest with
            | 125 :: rest' => Ok (VDict []) rest'
            | rest' => object_members fuel' rest' []
            end
          else if c =? 91 then
            match skip_ws rest with
            | 93 :: rest' => Ok (VList []) rest'
            | rest' => array_items fuel' rest' []
            end
          else if startswith s (lit "null") then Ok VNone (skipn 4 s)
          else if startswith s (lit "true") then Ok (VBool true) (skipn 4 s)
          else if startswith s (lit "false") then Ok (VBool false) (skipn 5 s)
          else
            match match_number s with
            | Some (v, rest') => Ok v rest'
            | None =>
                if startswith s (lit "NaN")
                then Ok (VFloat (lit "nan")) (skipn 3 s)
                else if startswith s (lit "Infinity")
                then Ok (VFloat (lit "inf")) (skipn 8 s)
                else if startswith s (lit "-Infinity")
                then Ok (VFloat (lit "-inf")) (skipn 9 s)
                else Fail EXPECTING_VALUE s
            end
      end
  end

with array_items (fuel : nat) (s : pystr) (acc : list value) : scan value :=
  match fuel with
  | O => OutOfFuel
  | S fuel' =>
      match scan_once fuel' s with
      | Ok v rest =>
          match skip_ws rest with
          | [] => Fail EXPECTING_COMMA []
          | c :: rest' =>
              if c =? 93 then Ok (VList (rev (v :: acc))) rest'
              else if c =? 44
              then array_items fuel' (skip_ws rest') (v :: acc)
              else Fail EXPECTING_COMMA (c :: rest')
          end
      | Fail m a => Fail m a
      | OutOfFuel => OutOfFuel
      end
  end

with object_members (fuel : nat) (s : pystr) (acc : list (pystr * value))
  : scan value :=
  match fuel with
  | O => OutOfFuel
  | S fuel' =>
      match s with
      | 34 :: after_quote =>
          match scanstring (S (List.length after_quote)) s after_quote [] with
          | Ok key rest =>
              match skip_ws rest with
              | 58 :: rest' =>
                  match scan_once fuel' (skip_ws rest') with
                  | Ok v rest'' =>
                      match skip_ws rest'' with
                      | [] => Fail EXPECTING_COMMA []
                      | c :: rest3 =>
                          if c =? 125
                          then Ok (VDict (dict_of_pairs (rev ((key, v) :: acc))))
                                  rest3
                          else if c =? 44
                          then object_members fuel' (skip_ws rest3)
                                              ((key, v) :: acc)
                          else Fail EXPECTING_COMMA (c :: rest3)
                      end
                  | Fail m a => Fail m a
                  | OutOfFuel => OutOfFuel
                  end
              | other => Fail EXPECTING_COLON other
              end
          | Fail m a => Fail m a
          | OutOfFuel => OutOfFuel
          end
      | _ => Fail EXPECTING_NAME s
      end
  end.

(** [str(e)] of a [JSONDecodeError]: the message, then the line, the column
    and the offset of the position. *)
Definition count_newlines (s : pystr) : nat :=
  List.length (filter (fun c => c =? 10) s).

Fixpoint after_last_newline (s cur : pystr) : pystr :=
  match s with
  | [] => rev cur
  | c :: s' =>
      if c =? 10 then after_last_newline s' []
      else after_last_newline s' (c :: cur)
  end.

Definition error_text (msg doc at_rest : pystr) : pystr :=
  let pos := (List.length doc - List.length at_rest)%nat in
  let before := firstn pos doc in
  msg ++ lit ": line " ++ str_of_N (N.of_nat (S (count_newlines before)))
      ++ lit " column "
      ++ str_of_N (N.of_nat (S (List.length (after_last_newline before []))))
      ++ lit " (char " ++ str_of_N (N.of_nat pos) ++ lit ")".

(** [json.loads(doc)] for a [str]. *)
Definition loads (doc : pystr) : decoded :=
  match doc with
  | 65279 :: _ =>
      JSONDecodeError
        (error_text (lit "Unexpected UTF-8 BOM (decode using utf-8-sig)")
                    doc doc)
  | _ =>
      match scan_once (2 * List.length doc + 2) (skip_ws doc) with
      | Ok v rest =>
          match skip_ws rest with
          | [] => Decoded v
          | extra => JSONDecodeError (error_text (lit "Extra data") doc extra)
          end
      | Fail msg at_rest => JSONDecodeError (error_text msg doc at_rest)
      | OutOfFuel =>
          DecodeRaises
            (lit "maximum recursion depth exceeded while decoding a JSON document")
      end
  end.

End RefJson.

(* ================================================================== *)
(** ** The JSON export (lines 109 to 116) *)

(** What [datetime.now()] returns, to the second. *)
Record datetime : Type := {
  year : N; month : N; day : N; hour : N; minute : N; second : N
}.

(** A clock reading: the fields are in the ranges of a [datetime], the year
    having four digits, as the years the clock of a running system shows
    have. *)
Definition datetime_ok (t : datetime) : bool :=
  (1000 <=? year t) && (year t <=? 9999)
  && (1 <=? month t) && (month t <=? 12)
  && (1 <=? day t) && (day t <=? 31)
  && (hour t <=? 23) && (minute t <=? 59) && (second t <=? 59).

(** A field of [strftime] that is padded with a zero to two digits. *)
Definition two_digits (n : N) : pystr := [48 + n / 10; 48 + n mod 10].

(** [t.strftime("%Y-%m-%d %H:%M:%S")]. *)
Definition strftime_ymd_hms (t : datetime) : pystr :=
  str_of_N (year t) ++ [45] ++ two_digits (month t) ++ [45]
    ++ two_digits (day t) ++ [32] ++ two_digits (hour t) ++ [58]
    ++ two_digits (minute t) ++ [58] ++ two_digits (second t).

(** Lines 110 to 115. *)
Definition quiz_data (now : datetime) (questions : list value)
    (quiz_title : pystr) : value :=
  VDict [ (lit "quiz_title", VStr quiz_title);
          (lit "created_date", VStr (strftime_ymd_hms now));
          (lit "total_questions", VInt (Z.of_nat (List.length questions)));
          (lit "questions", VList questions) ].

Section QuizExport.

(** [json.dumps(obj, indent=n)] is the library's. *)
Variable json_dumps : value -> nat -> pystr.

Definition save_quiz_to_file (now : datetime) (questions : list value)
    (quiz_title : pystr) : pystr :=
  json_dumps (quiz_data now questions quiz_title) 2.

End QuizExport.

(** The shape [YYYY-MM-DD HH:MM:SS]: digits, with the separators in their
    places. *)
Definition is_ymd_hms (s : pystr) : bool :=
  match s with
  | [y1; y2; y3; y4; d1; m1; m2; d2; a1; a2; sp; h1; h2; c1; i1; i2; c2; s1; s2] =>
      forallb is_digit [y1; y2; y3; y4; m1; m2; a1; a2; h1; h2; i1; i2; s1; s2]
      && (d1 =? 45) && (d2 =? 45) && (sp =? 32) && (c1 =? 58) && (c2 =? 58)
  | _ => false
  end.

(* ================================================================== *)
(** ** The wizard (lines 19 to 25 and 118 to 325) *)

(** The three values [current_step] takes: ["input"], ["generated"] and
    ["saved"]. *)
Inductive step : Type := Input | Generated | Saved.

(** [st.session_state]. *)
Record session : Type := {
  questions : list value;
  quiz_generated : bool;
  current_step : step
}.

(** Lines 19 to 25, on a new session. *)
Definition initialize_session_state : session :=
  {| questions := []; quiz_generated := false; current_step := Input |}.

(** The button that started a run of the script, if one did. *)
Inductive click : Type :=
| No_Click
| Start_New_Quiz
| Generate_Questions
| Generate_New_Quiz
| Edit_Questions
| Save_Quiz
| Create_Another_Quiz
| Back_to_Quiz
| Generate_More_Questions.

(** What a run of the script reads: the key the environment holds when
    line 13 runs (the script is run anew at every interaction, and
    [load_dotenv] may have changed the environment since the run before),
    the key typed in the sidebar, the topic field, the button, and what the
    hosted model answers if it is asked.  The other fields of the form go
    to the prompt only. *)
Record run_input : Type := {
  env_key : option pystr;
  api_key_input : pystr;
  topic : pystr;
  clicked : click;
  response : api_result
}.

(** [q['question'][:50]] of line 227 raises unless the value can be
    sliced. *)
Definition sliceable (v : value) : bool :=
  match v with
  | VStr _ | VList _ => true
  | _ => false
  end.

(** Lines 226 to 235 run to their end. *)
Definition renders (qs : list value) : bool :=
  forallb (fun q =>
             match q with
             | VDict d => sliceable (subscript d KEY_QUESTION)
             | _ => false
             end) qs.

(** Lines 13 and 137 to 139: the global [GOOGLE_API_KEY] after the
    sidebar. *)
Definition sidebar_key (inp : run_input) : option pystr :=
  if truthy (api_key_input inp) then Some (api_key_input inp)
  else env_key inp.

(** [a or b] on two readings of the key. *)
Definition key_or (a b : option pystr) : option pystr :=
  if key_available a then a else b.

Section Wizard.

Variable json_loads : pystr -> decoded.

(** Lines 189 to 216. *)
Definition on_generate (inp : run_input) (s : session) : session :=
  let GOOGLE_API_KEY := sidebar_key inp in
  if truthy (topic inp)
     && key_available (key_or GOOGLE_API_KEY GOOGLE_API_KEY)
  then
    let current_api_key := key_or GOOGLE_API_KEY GOOGLE_API_KEY in
    if key_available current_api_key then
      let qs := snd (generate_questions_with_gemini
                       json_loads current_api_key (response inp)) in
      match qs with
      | _ :: _ =>
          {| questions := qs; quiz_generated := true;
             current_step := Generated |}
      | [] =>
          {| questions := qs; quiz_generated := quiz_generated s;
             current_step := current_step s |}
      end
    else s
  else s.

Definition reset : session :=
  {| questions := []; quiz_generated := false; current_step := Input |}.

Definition goto (target : step) (s : session) : session :=
  {| questions := questions s; quiz_generated := quiz_generated s;
     current_step := target |}.

(** One run of [main] on a session that lines 19 to 25 have initialised.
    [st.rerun()] ends the run; the run it starts has no button. *)
Definition main (inp : run_input) (s : session) : session :=
  match clicked inp with
  | Start_New_Quiz => reset
  | c =>
      match current_step s with
      | Input =>
          match c with
          | Generate_Questions => on_generate inp s
          | _ => s
          end
      | Generated =>
          match questions s with
          | [] => s
          | _ :: _ =>
              if renders (questions s) then
                match c with
                | Generate_New_Quiz => goto Input s
                | Save_Quiz => goto Saved s
                | _ => s
                end
              else s
          end
      | Saved =>
          match c with
          | Create_Another_Quiz => reset
          | Back_to_Quiz => goto Generated s
          | Generate_More_Questions => goto Input s
          | _ => s
          end
      end
  end.

(** The step relation of the wizard, and the sessions it reaches. *)
Definition wizard_step (s s' : session) : Prop :=
  exists inp, main inp s = s'.

Inductive reachable : session -> Prop :=
| reachable_init : reachable initialize_session_state
| reachable_step : forall s s',
    reachable s -> wizard_step s s' -> reachable s'.

End Wizard.

(* ================================================================== *)
(** ** The session before it is initialised (lines 19 to 25) *)

(** [st.session_state] as a run finds it: each of the three keys is there
    or not. *)
Record raw_session : Type := {
  raw_questions : option (list value);
  raw_quiz_generated : option bool;
  raw_current_step : option step
}.

(** [x = default] under [if key not in st.session_state]. *)
Definition setdefault {A : Type} (x : option A) (default : A) : option A :=
  match x with
  | Some _ => x
  | None => Some default
  end.

(** Lines 19 to 25 on any session. *)
Definition initialize_raw_session (r : raw_session) : raw_session :=
  {| raw_questions := setdefault (raw_questions r) [];
     raw_quiz_generated := setdefault (raw_quiz_generated r) false;
     raw_current_step := setdefault (raw_current_step r) Input |}.

(** A session with its three keys, as a raw session. *)
Definition to_raw (s : session) : raw_session :=
  {| raw_questions := Some (questions s);
     raw_quiz_generated := Some (quiz_generated s);
     raw_current_step := Some (current_step s) |}.

Definition NEW_SESSION : raw_session :=
  {| raw_questions := None; raw_quiz_generated := None;
     raw_current_step := None |}.

(* ================================================================== *)
(** ** The downloads of the saved page (lines 279 to 304) *)

(** [title.replace(' ', '_')]. *)
Definition replace_spaces (title : pystr) : pystr :=
  List.map (fun c => if c =? 32 then 95 else c) title.

(** Lines 280 and 301. *)
Definition filename_json (quiz_title : pystr) : pystr :=
  replace_spaces quiz_title ++ lit ".json".

Definition filename_txt (quiz_title : pystr) : pystr :=
  replace_spaces quiz_title ++ lit ".txt".

(** What a statement of the saved page comes to: its value, or the
    exception that ends the run. *)
Inductive outcome (A : Type) : Type :=
| Done (a : A)
| KeyError (key : pystr)
| TypeError
| ValueError.
Arguments KeyError {A} key.
Arguments TypeError {A}.
Arguments ValueError {A}.

Definition and_then {A B : Type} (x : outcome A) (f : A -> outcome B)
  : outcome B :=
  match x with
  | Done a => f a
  | KeyError k => KeyError k
  | TypeError => TypeError
  | ValueError => ValueError
  end.

(** [q[k]] on any value: only a dict can be read by a [str] key. *)
Definition getitem (q : value) (k : pystr) : outcome value :=
  match q with
  | VDict d =>
      match dict_get k d with
      | Some v => Done v
      | None => KeyError k
      end
  | _ => TypeError
  end.

(** What [enumerate(v)] runs over. *)
Definition enumerate (v : value) : outcome (list value) :=
  match iterate v with
  | Returned items => Done items
  | Raised _ => TypeError
  end.

(** [chr(n)]: the character, or [ValueError] beyond U+10FFFF. *)
Definition chr (n : N) : outcome char :=
  if n <=? 1114111 then Done n else ValueError.

Definition MARK_CORRECT : pystr := [91; 10003; 93].
Definition MARK_OTHER : pystr := lit "[ ]".

(** [title + '\n' + '=' * 50 + '\n\n'], line 289. *)
Definition text_header (quiz_title : pystr) : pystr :=
  quiz_title ++ NEWLINE ++ repeat 61 50 ++ NEWLINE ++ NEWLINE.

Section TextExport.

(** [str(v)] of a float, a list or a dict, and [j == x] for a float [x]
    and an index [j], are Python's. *)
Variable py_str_other : value -> pystr.
Variable float_eq_index : pystr -> nat -> bool.

(** [f"{v}"]. *)
Definition format_value (v : value) : pystr :=
  match v with
  | VStr s => s
  | VInt z => str_of_Z z
  | VBool true => lit "True"
  | VBool false => lit "False"
  | VNone => lit "None"
  | _ => py_str_other v
  end.

(** [j == answer], line 293. *)
Definition index_eq (j : nat) (answer : value) : bool :=
  match answer with
  | VInt z => (Z.of_nat j =? z)%Z
  | VBool true => (j =? 1)%nat
  | VBool false => (j =? 0)%nat
  | VFloat literal => float_eq_index literal j
  | _ => false
  end.

(** The line of line 294. *)
Definition option_line (marker : pystr) (letter : char) (option : value)
  : pystr :=
  lit "  " ++ marker ++ lit " " ++ [letter] ++ lit ". "
    ++ format_value option ++ NEWLINE.

(** Lines 292 to 294, from the option at index [j] on. *)
Fixpoint option_lines (q : value) (j : nat) (options : list value)
  : outcome pystr :=
  match options with
  | [] => Done []
  | option :: rest =>
      and_then (getitem q KEY_CORRECT_ANSWER) (fun answer =>
      let marker := if index_eq j answer then MARK_CORRECT else MARK_OTHER in
      and_then (chr (65 + N.of_nat j)) (fun letter =>
      and_then (option_lines q (S j) rest) (fun more =>
      Done (option_line marker letter option ++ more))))
  end.

(** Lines 295 and 296. *)
Definition explanation_line (q : value) : pystr :=
  match q with
  | VDict d =>
      if dict_contains KEY_EXPLANATION d
      then lit "  Explanation: "
             ++ format_value (subscript d KEY_EXPLANATION) ++ NEWLINE
      else []
  | _ => []
  end.

(** Lines 291 to 297 for the question numbered [i]. *)
Definition question_block (i : nat) (q : value) : outcome pystr :=
  and_then (getitem q KEY_QUESTION) (fun question =>
  and_then (getitem q KEY_OPTIONS) (fun options =>
  and_then (enumerate options) (fun items =>
  and_then (option_lines q 0 items) (fun lines =>
  Done (lit "Question " ++ str_of_N (N.of_nat i) ++ lit ": "
          ++ format_value question ++ NEWLINE
          ++ lines ++ explanation_line q ++ NEWLINE))))).

(** Lines 290 to 297, from the question numbered [i] on. *)
Fixpoint question_blocks (i : nat) (qs : list value) : outcome pystr :=
  match qs with
  | [] => Done []
  | q :: rest =>
      and_then (question_block i q) (fun block =>
      and_then (question_blocks (S i) rest) (fun more =>
      Done (block ++ more)))
  end.

(** Lines 289 to 297: [text_content]. *)
Definition text_content (quiz_title : pystr) (qs : list value)
  : outcome pystr :=
  and_then (question_blocks 1 qs) (fun blocks =>
  Done (text_header quiz_title ++ blocks)).

End TextExport.

(* ================================================================== *)
(** ** An encoder to run the export on concrete records *)

(** An executable [json.dumps(obj, indent=n)] for the values the decoder
    builds, after CPython's encoder with its defaults: characters outside
    printable ASCII are escaped, items are separated by a comma and a new
    line, keys are followed by a colon and a space.  A float is printed as
    the literal it was read from, which is not always what Python prints;
    no property depends on it. *)
Module RefEncoder.

Definition hex_char (n : N) : char := if n <? 10 then 48 + n else 87 + n.

Definition u_escape (c : N) : pystr :=
  [92; 117; hex_char (c / 4096 mod 16); hex_char (c / 256 mod 16);
   hex_char (c / 16 mod 16); hex_char (c mod 16)].

Definition escape_char (c : char) : pystr :=
  if c =? 34 then [92; 34]
  else if c =? 92 then [92; 92]
  else if c =? 10 then [92; 110]
  else if c =? 13 then [92; 114]
  else if c =? 9 then [92; 116]
  else if c =? 8 then [92; 98]
  else if c =? 12 then [92; 102]
  else if (32 <=? c) && (c <=? 126) then [c]
  else if c <? 65536 then u_escape c
  else u_escape (55296 + (c - 65536) / 1024)
       ++ u_escape (56320 + (c - 65536) mod 1024).

Definition encode_str (s : pystr) : pystr :=
  [34] ++ flat_map escape_char s ++ [34].

Definition float_repr (literal : pystr) : pystr :=
  if str_eqb literal (lit "nan") then lit "NaN"
  else if str_eqb literal (lit "inf") then lit "Infinity"
  else if str_eqb literal (lit "-inf") then lit "-Infinity"
  else literal.

(** The new line and the indentation of a nesting level. *)
Definition newline_indent (indent level : nat) : pystr :=
  10 :: repeat 32 (indent * level).

Fixpoint encode (indent level : nat) (v : value) {struct v} : pystr :=
  match v with
  | VNone => lit "null"
  | VBool true => lit "true"
  | VBool false => lit "false"
  | VInt z => str_of_Z z
  | VFloat literal => float_repr literal
  | VStr s => encode_str s
  | VList [] => lit "[]"
  | VList items =>
      [91] ++ newline_indent indent (S level)
        ++ (fix each (l : list value) : pystr :=
              match l with
              | [] => []
              | x :: rest =>
                  match rest with
                  | [] => encode indent (S level) x
                  | _ :: _ =>
                      encode indent (S level) x ++ [44]
                        ++ newline_indent indent (S level) ++ each rest
                  end
              end) items
        ++ newline_indent indent level ++ [93]
  | VDict [] => lit "{}"
  | VDict entries =>
      [123] ++ newline_indent indent (S level)
        ++ (fix each (l : list (pystr * value)) : pystr :=
              match l with
              | [] => []
              | (k, x) :: rest =>
                  match rest with
                  | [] => encode_str k ++ [58; 32] ++ encode indent (S level) x
                  | _ :: _ =>
                      encode_str k ++ [58; 32] ++ encode indent (S level) x
                        ++ [44] ++ newline_indent indent (S level)
                        ++ each rest
                  end
              end) entries
        ++ newline_indent indent level ++ [125]
  end.

Definition dumps (obj : value) (indent : nat) : pystr := encode indent 0 obj.

End RefEncoder.

(* ================================================================== *)
(** ** The vocabulary of the properties *)

(** A JSON text of the examples, written with ['] for the double quote. *)
Definition dq (s : string) : pystr :=
  List.map (fun c => if c =? 39 then 34 else c) (lit s).

(** What the loop leaves at a position of the array. *)
Definition settled (q : value) : value :=
  if is_valid_question q then ensure_explanation q else q.

(** The positions of a list whose element passes a test, in increasing
    order. *)
Definition positions (p : value -> bool) (l : list value) : list nat :=
  filter (fun i => p (nth i l VNone)) (seq 0 (List.length l)).

(** The dict line 90 appends for an accepted dict. *)
Definition with_explanation (d : dict) : dict :=
  if dict_contains KEY_EXPLANATION d then d
  else d ++ [(KEY_EXPLANATION, VStr EXPLANATION_PLACEHOLDER)].

(** A string that is empty or starts with a character that is not white
    space. *)
Definition lstripped (s : pystr) : Prop :=
  match s with
  | [] => True
  | c :: _ => isspace c = false
  end.

(** The log holds an error. *)
Definition signals_error (log : ui_log) : Prop :=
  exists text, In (St_error text) log.

(** The log of the branch of lines 99 to 102, the spec's
    [MalformedResponse]. *)
Definition signals_malformed (log : ui_log) : Prop :=
  exists e excerpt,
    log = [St_error (msg_parse_error e);
           St_error (lit "Raw Gemini output:" ++ NEWLINE ++ excerpt ++ lit "...")].

(** The log of the branch of lines 95 to 97, the spec's
    [NoValidQuestions]. *)
Definition NO_VALID_QUESTIONS : ui_log := [St_error MSG_NO_VALID].



(** What the tests of lines 77 to 88 establish of a record, booleans set
    aside: a dict with a [question] key, a list of two options at least, a
    [correct_answer] that, unless it is a boolean, is an integer that
    indexes the options, and an [explanation] key. *)
Definition record_as_built (r : value) : Prop :=
  exists d options answer,
    r = VDict d
    /\ dict_contains KEY_QUESTION d = true
    /\ dict_get KEY_OPTIONS d = Some (VList options)
    /\ (2 <= List.length options)%nat
    /\ dict_get KEY_CORRECT_ANSWER d = Some answer
    /\ ((forall b, answer <> VBool b) ->
        exists z, answer = VInt z
                  /\ (0 <= z < Z.of_nat (List.length options))%Z)
    /\ dict_contains KEY_EXPLANATION d = true.


(** A valid question object as the spec words it: a mapping with a
    [question], [options] of length 2 at least and an integer
    [correct_answer] within bounds. *)
Definition valid_question_object (q : value) : Prop :=
  exists d options z,
    q = VDict d
    /\ dict_contains KEY_QUESTION d = true
    /\ dict_get KEY_OPTIONS d = Some (VList options)
    /\ (2 <= List.length options)%nat
    /\ dict_get KEY_CORRECT_ANSWER d = Some (VInt z)
    /\ (0 <= z < Z.of_nat (List.length options))%Z.

(** A text is a contiguous part of another. *)
Definition part_of (inner outer : pystr) : Prop :=
  exists before after, outer = before ++ inner ++ after.

(** A JSON value that is neither text nor a container. *)
Definition is_scalar (v : value) : bool :=
  match v with
  | VNone | VBool _ | VInt _ | VFloat _ => true
  | _ => false
  end.

(** The options of a record are few enough for [chr(65+j)] to name each:
    the last letter [chr] can give is U+10FFFF. *)
Definition options_nameable (q : value) : Prop :=
  forall d options,
    q = VDict d -> dict_get KEY_OPTIONS d = Some (VList options) ->
    N.of_nat (List.length options) <= 1114047.

(* ================================================================== *)
(** ** The prompt (lines 39 to 55) *)

(** Lines 39 to 50: the request, its requirements and the format. *)
Definition prompt_head (topic : pystr) (num_questions : Z)
    (difficulty : pystr) : pystr :=
  lit "Generate " ++ str_of_Z num_questions
    ++ lit " specific, detailed multiple-choice questions on the topic '"
    ++ topic ++ lit "' "
    ++ lit "at " ++ difficulty ++ lit " difficulty level. "
    ++ lit "IMPORTANT REQUIREMENTS:" ++ NEWLINE
    ++ lit "1. Create SPECIFIC questions that test detailed knowledge, NOT general overview questions"
    ++ NEWLINE
    ++ lit "2. Avoid questions like 'What is the main concept of...', 'What is the primary purpose of...'"
    ++ NEWLINE
    ++ lit "3. Focus on specific facts, applications, examples, and detailed aspects of the topic"
    ++ NEWLINE
    ++ lit "4. Each question should test concrete knowledge rather than broad concepts"
    ++ NEWLINE
    ++ lit "5. Include technical details, specific examples, or practical applications"
    ++ NEWLINE ++ NEWLINE
    ++ lit "Format: Return ONLY a pure JSON array with this exact structure:"
    ++ NEWLINE
    ++ dq "[{'question': 'specific question here', 'options': ['option1', 'option2', 'option3', 'option4'], 'correct_answer': 0, 'explanation': 'detailed explanation here'}, ...]"
    ++ NEWLINE ++ NEWLINE.

(** Line 53. *)
Definition prompt_content (content_input : pystr) : pystr :=
  lit "Base the questions on this specific content:" ++ NEWLINE
    ++ content_input ++ NEWLINE ++ NEWLINE.

(** Line 55. *)
Definition PROMPT_TAIL : pystr :=
  lit "Return ONLY the JSON array, no markdown formatting, no explanatory text.".

(** Lines 39 to 55. *)
Definition build_prompt (topic : pystr) (num_questions : Z)
    (difficulty content_input : pystr) : pystr :=
  let prompt := prompt_head topic num_questions difficulty in
  let prompt :=
    if truthy (strip content_input)
    then prompt ++ prompt_content content_input
    else prompt in
  prompt ++ PROMPT_TAIL.

(** Examples and auxiliary predicates of the proofs. *)

(** The spec's seventh example: one question without an explanation. *)
Definition EXAMPLE_ONE_QUESTION : pystr :=
  dq "[{'question':'Q1','options':['A','B','C'],'correct_answer':1}]".

Definition EXAMPLE_ONE_RECORD : value :=
  VDict [ (KEY_QUESTION, VStr (lit "Q1"));
          (KEY_OPTIONS, VList [VStr (lit "A"); VStr (lit "B"); VStr (lit "C")]);
          (KEY_CORRECT_ANSWER, VInt 1);
          (KEY_EXPLANATION, VStr EXPLANATION_PLACEHOLDER) ].

(** A year of four digits prints as four digits. *)
Definition prints_four_digits (y : N) : bool :=
  match str_of_N y with
  | [a; b; c; d] => forallb is_digit [a; b; c; d]
  | _ => false
  end.

Definition EXAMPLE_CLOCK : datetime :=
  {| year := 2024; month := 3; day := 9; hour := 7; minute := 5; second := 0 |}.

(** Away from the input page the session holds questions. *)
Definition holds_questions (s : session) : Prop :=
  current_step s <> Input -> questions s <> [].

(** A first run of the wizard on the spec's seventh example. *)
Definition EXAMPLE_RUN : run_input :=
  {| env_key := None; api_key_input := lit "secret"; topic := lit "Letters";
     clicked := Generate_Questions;
     response := ApiText EXAMPLE_ONE_QUESTION |}.

(** A quiz on the generated page, and the run that asks for a new one
    while the model fails. *)
Definition EXAMPLE_QUIZ : session :=
  {| questions := [EXAMPLE_ONE_RECORD]; quiz_generated := true;
     current_step := Generated |}.

Definition EXAMPLE_FAILING_RUN : run_input :=
  {| env_key := Some (lit "secret"); api_key_input := [];
     topic := lit "Letters"; clicked := Generate_Questions;
     response := ApiRaises (lit "quota exceeded") |}.

(** A run whose answer holds a question that is a number. *)
Definition EXAMPLE_NUMBER_RUN : run_input :=
  {| env_key := None; api_key_input := lit "secret"; topic := lit "Letters";
     clicked := Generate_Questions;
     response :=
       ApiText (dq "[{'question':5,'options':['A','B'],'correct_answer':0}]") |}.

Definition click_only (c : click) : run_input :=
  {| env_key := None; api_key_input := []; topic := [];
     clicked := c; response := ApiRaises [] |}.

(* ================================================================== *)
(** * Properties *)

(** ** The loop of lines 75 to 90 *)

Lemma store_update_middle : forall (pre : list value) x post v n,
  List.length pre = n ->
  store_update n v (pre ++ x :: post) = pre ++ v :: post.
Proof.
  induction pre as [|a pre IH]; intros x post v n Hn; subst n; simpl.
  - reflexivity.
  - now rewrite IH.
Qed.

Lemma nth_error_middle : forall (pre : list value) x post n,
  List.length pre = n ->
  nth_error (pre ++ x :: post) n = Some x.
Proof.
  induction pre as [|a pre IH]; intros x post n Hn; subst n; simpl; auto.
Qed.

Lemma split_at : forall (l : list value) n,
  (n < List.length l)%nat ->
  exists x, skipn n l = x :: skipn (S n) l
            /\ firstn (S n) l = firstn n l ++ [x]
            /\ nth n l VNone = x.
Proof.
  induction l as [|a l IH]; intros n Hn; simpl in Hn.
  - lia.
  - destruct n as [|n].
    + exists a. simpl. auto.
    + destruct (IH n) as [x [H1 [H2 H3]]]; [lia|].
      exists x. split; [exact H1|]. split; [|exact H3].
      change (firstn (S (S n)) (a :: l)) with (a :: firstn (S n) l).
      rewrite H2. reflexivity.
Qed.

Lemma validate_loop_prefix : forall qs n,
  (n <= List.length qs)%nat ->
  let st := fold_left validate_step (seq 0 n)
                      {| objects := qs; validated_questions := [] |} in
  objects st = List.map settled (firstn n qs) ++ skipn n qs
  /\ validated_questions st
     = filter (fun i => is_valid_question (nth i qs VNone)) (seq 0 n).
Proof.
  intros qs n. induction n as [|n IH]; intros Hn; cbn zeta.
  - simpl. auto.
  - rewrite seq_S, fold_left_app. simpl plus. cbn [fold_left].
    destruct IH as [Hobj Href]; [lia|].
    destruct (split_at qs (n := n)) as [x [Hs [Hf Hx]]]; [lia|].
    remember (fold_left validate_step (seq 0 n)
                {| objects := qs; validated_questions := [] |}) as st.
    remember (List.map settled (firstn n qs)) as done.
    assert (Hlen : List.length done = n).
    { subst done. rewrite length_map, length_firstn. lia. }
    rewrite Hs in Hobj.
    unfold validate_step. rewrite Hobj.
    rewrite (nth_error_middle _ _ _ Hlen).
    rewrite filter_app. cbn [filter]. rewrite Hx.
    destruct (is_valid_question x) eqn:Hv; cbn [objects validated_questions].
    + rewrite (store_update_middle _ _ _ _ Hlen).
      rewrite Hf, map_app, <- app_assoc, <- Heqdone. simpl.
      unfold settled. rewrite Hv. rewrite Href. auto.
    + rewrite Hobj, Hf, map_app, <- app_assoc, <- Heqdone. simpl.
      unfold settled. rewrite Hv. rewrite Href, app_nil_r. auto.
Qed.

Lemma validate_loop_objects : forall qs,
  objects (validate_loop qs) = List.map settled qs.
Proof.
  intros qs. unfold validate_loop.
  destruct (validate_loop_prefix qs (n := List.length qs)) as [H _]; [lia|].
  rewrite H, firstn_all, skipn_all, app_nil_r. reflexivity.
Qed.

Lemma validate_loop_refs : forall qs,
  validated_questions (validate_loop qs) = positions is_valid_question qs.
Proof.
  intros qs. unfold validate_loop, positions.
  destruct (validate_loop_prefix qs (n := List.length qs)) as [_ H]; [lia|].
  exact H.
Qed.

Lemma map_nth_shift : forall (p : value -> bool) a b (l m : list value) r,
  List.map (fun i => nth i (b :: m) VNone)
           (filter (fun i => p (nth i (a :: l) VNone)) (List.map S r))
  = List.map (fun i => nth i m VNone)
             (filter (fun i => p (nth i l VNone)) r).
Proof.
  intros p a b l m r. induction r as [|i r IH]; [reflexivity|].
  simpl. destruct (p (nth i l VNone)); simpl; now rewrite <- IH.
Qed.

Lemma map_nth_positions : forall (p : value -> bool) (f : value -> value) l,
  List.map (fun i => nth i (List.map f l) VNone) (positions p l)
  = List.map f (filter p l).
Proof.
  intros p f l. unfold positions.
  induction l as [|a l IH]; [reflexivity|].
  cbn [List.length]. rewrite <- cons_seq, <- seq_shift.
  cbn [filter List.map].
  change (nth 0 (a :: l) VNone) with a.
  destruct (p a); cbn [List.map]; rewrite map_nth_shift, IH; reflexivity.
Qed.

(** The loop is a filter followed by a map. *)
Lemma validate_questions_eq : forall qs,
  validate_questions qs
  = List.map ensure_explanation (filter is_valid_question qs).
Proof.
  intros qs. unfold validate_questions, deref.
  rewrite validate_loop_objects, validate_loop_refs, map_nth_positions.
  induction qs as [|q qs IH]; [reflexivity|].
  cbn [filter]. destruct (is_valid_question q) eqn:Hv; cbn [List.map].
  - unfold settled at 1. rewrite Hv, IH. reflexivity.
  - exact IH.
Qed.

(** ** Strings and dicts *)

Lemma str_eqb_refl : forall s, str_eqb s s = true.
Proof.
  induction s as [|c s IH]; simpl; [reflexivity|].
  unfold char_eqb. now rewrite N.eqb_refl, IH.
Qed.

Lemma str_eqb_eq : forall s t, str_eqb s t = true <-> s = t.
Proof.
  induction s as [|a s IH]; destruct t as [|b t]; simpl; split;
    try congruence; try reflexivity.
  - intros H. apply andb_true_iff in H as [Hc Hs].
    apply N.eqb_eq in Hc. apply IH in Hs. congruence.
  - intros H. injection H as -> ->. unfold char_eqb.
    rewrite N.eqb_refl. now apply IH.
Qed.

Lemma str_eqb_neq : forall s t, s <> t -> str_eqb s t = false.
Proof.
  intros s t H. destruct (str_eqb s t) eqn:E; [|reflexivity].
  apply str_eqb_eq in E. contradiction.
Qed.

Lemma dict_contains_get : forall k d,
  dict_contains k d = true <-> exists v, dict_get k d = Some v.
Proof.
  intros k d. induction d as [|[k' v'] d IH]; simpl.
  - split; [discriminate | intros [v H]; discriminate].
  - destruct (str_eqb k k'); simpl.
    + split; [intros _; now exists v' | reflexivity].
    + exact IH.
Qed.

Lemma dict_contains_false_get : forall k d,
  dict_contains k d = false -> dict_get k d = None.
Proof.
  intros k d H. destruct (dict_get k d) eqn:E; [|reflexivity].
  assert (dict_contains k d = true) by (apply dict_contains_get; eauto).
  congruence.
Qed.

(** A key that is not in the dict goes to its end. *)
Lemma dict_set_absent : forall k v d,
  dict_contains k d = false -> dict_set k v d = d ++ [(k, v)].
Proof.
  intros k v d. induction d as [|[k' v'] d IH]; simpl; intros H.
  - reflexivity.
  - apply orb_false_iff in H as [Hk Hd]. rewrite Hk. now rewrite IH.
Qed.

Lemma dict_get_app_other : forall k k' v d,
  str_eqb k k' = false -> dict_get k (d ++ [(k', v)]) = dict_get k d.
Proof.
  intros k k' v d Hk. induction d as [|[k0 v0] d IH]; simpl.
  - now rewrite Hk.
  - destruct (str_eqb k k0); auto.
Qed.

Lemma dict_get_app_found : forall k v (d extra : dict),
  dict_get k d = Some v -> dict_get k (d ++ extra) = Some v.
Proof.
  intros k v d extra. induction d as [|[k0 v0] d IH]; simpl.
  - discriminate.
  - destruct (str_eqb k k0); auto.
Qed.

Lemma dict_get_app_new : forall k v d,
  dict_contains k d = false -> dict_get k (d ++ [(k, v)]) = Some v.
Proof.
  intros k v d. induction d as [|[k0 v0] d IH]; simpl; intros H.
  - now rewrite str_eqb_refl.
  - apply orb_false_iff in H as [Hk Hd]. rewrite Hk. auto.
Qed.

Lemma dict_contains_app : forall k (d extra : dict),
  dict_contains k (d ++ extra) = dict_contains k d || dict_contains k extra.
Proof.
  intros k d extra. induction d as [|[k0 v0] d IH]; simpl.
  - reflexivity.
  - now rewrite IH, orb_assoc.
Qed.

(** ** What an accepted element looks like *)

Lemma ensure_explanation_dict : forall d,
  ensure_explanation (VDict d) = VDict (with_explanation d).
Proof.
  intros d. unfold ensure_explanation, with_explanation.
  destruct (dict_contains KEY_EXPLANATION d) eqn:E; simpl.
  - reflexivity.
  - now rewrite dict_set_absent.
Qed.

Lemma with_explanation_contains : forall d,
  dict_contains KEY_EXPLANATION (with_explanation d) = true.
Proof.
  intros d. unfold with_explanation.
  destruct (dict_contains KEY_EXPLANATION d) eqn:E; [exact E|].
  rewrite dict_contains_app. cbn [dict_contains].
  rewrite str_eqb_refl. cbn [orb]. apply orb_true_r.
Qed.

Lemma with_explanation_get : forall k v d,
  dict_get k d = Some v -> dict_get k (with_explanation d) = Some v.
Proof.
  intros k v d H. unfold with_explanation.
  destruct (dict_contains KEY_EXPLANATION d); [exact H|].
  now apply dict_get_app_found.
Qed.

Lemma with_explanation_get_other : forall k d,
  k <> KEY_EXPLANATION ->
  dict_get k (with_explanation d) = dict_get k d.
Proof.
  intros k d H. unfold with_explanation.
  destruct (dict_contains KEY_EXPLANATION d); [reflexivity|].
  apply dict_get_app_other. now apply str_eqb_neq.
Qed.

Lemma with_explanation_contains_old : forall k d,
  dict_contains k d = true -> dict_contains k (with_explanation d) = true.
Proof.
  intros k d H. apply dict_contains_get in H as [v H].
  apply dict_contains_get. exists v. now apply with_explanation_get.
Qed.

(** The tests of lines 77 to 84, read off an accepted element. *)
Lemma is_valid_question_inv : forall q,
  is_valid_question q = true ->
  exists d options answer,
    q = VDict d
    /\ dict_contains KEY_QUESTION d = true
    /\ dict_get KEY_OPTIONS d = Some (VList options)
    /\ (2 <= List.length options)%nat
    /\ dict_get KEY_CORRECT_ANSWER d = Some answer
    /\ isinstance_int answer = true
    /\ index_in_range answer (List.length options) = true.
Proof.
  intros q H. destruct q as [| | | | | |d]; try discriminate.
  cbn [is_valid_question] in H.
  apply andb_true_iff in H as [H Hr]. apply andb_true_iff in H as [H Hi].
  apply andb_true_iff in H as [H Hl]. apply andb_true_iff in H as [H Ht].
  apply andb_true_iff in H as [H Hca]. apply andb_true_iff in H as [Hq Hco].
  apply dict_contains_get in Hco as [ov Hov].
  apply dict_contains_get in Hca as [av Hav].
  unfold subscript in *. rewrite Hov in Ht, Hl, Hr. rewrite Hav in Hi, Hr.
  destruct ov as [| | | | |options|]; try discriminate.
  exists d, options, av. cbn [len] in Hl, Hr.
  repeat split; auto. now apply Nat.leb_le.
Qed.

Lemma is_valid_question_intro : forall d options answer,
  dict_contains KEY_QUESTION d = true ->
  dict_get KEY_OPTIONS d = Some (VList options) ->
  (2 <= List.length options)%nat ->
  dict_get KEY_CORRECT_ANSWER d = Some answer ->
  isinstance_int answer = true ->
  index_in_range answer (List.length options) = true ->
  is_valid_question (VDict d) = true.
Proof.
  intros d options answer Hq Ho Hl Ha Hi Hr. simpl.
  assert (Hco : dict_contains KEY_OPTIONS d = true)
    by (apply dict_contains_get; eauto).
  assert (Hca : dict_contains KEY_CORRECT_ANSWER d = true)
    by (apply dict_contains_get; eauto).
  cbn [is_valid_question]. unfold subscript.
  rewrite Hq, Hco, Hca, Ho, Ha. cbn [isinstance_list len andb].
  rewrite Hi, Hr. apply Nat.leb_le in Hl.
  change (match List.length options with S (S _) => true | _ => false end)
    with (2 <=? List.length options)%nat.
  now rewrite Hl.
Qed.

(** Adding the explanation does not change the verdict. *)
Lemma is_valid_question_settled : forall q,
  is_valid_question (settled q) = is_valid_question q.
Proof.
  intros q. unfold settled.
  destruct (is_valid_question q) eqn:Hv; [|exact Hv].
  destruct (is_valid_question_inv _ Hv)
    as (d & options & answer & -> & Hq & Ho & Hl & Ha & Hi & Hr).
  rewrite ensure_explanation_dict.
  eapply is_valid_question_intro; eauto using with_explanation_get,
    with_explanation_contains_old.
Qed.

(** ** Stripping *)

Lemma rstrip_snoc_space : forall s c,
  isspace c = true -> rstrip (s ++ [c]) = rstrip s.
Proof.
  induction s as [|a s IH]; intros c Hc.
  - cbn [app rstrip]. now rewrite Hc.
  - cbn [app rstrip]. now rewrite IH.
Qed.

Lemma rstrip_snoc_nonspace : forall s c,
  isspace c = false -> rstrip (s ++ [c]) = s ++ [c].
Proof.
  induction s as [|a s IH]; intros c Hc.
  - cbn [app rstrip]. now rewrite Hc.
  - cbn [app rstrip]. rewrite IH by assumption.
    destruct (s ++ [c]) eqn:E; [|reflexivity].
    destruct s; discriminate.
Qed.

Lemma rstrip_idem : forall s, rstrip (rstrip s) = rstrip s.
Proof.
  induction s as [|c s IH]; [reflexivity|].
  cbn [rstrip]. destruct (rstrip s) as [|b r] eqn:E.
  - destruct (isspace c) eqn:Hc; [reflexivity|].
    cbn [rstrip]. now rewrite Hc.
  - cbn [rstrip]. cbn [rstrip] in IH.
    destruct (rstrip r); rewrite IH; reflexivity.
Qed.

Lemma lstripped_lstrip : forall s, lstripped (lstrip s).
Proof.
  induction s as [|c s IH]; simpl; [exact I|].
  destruct (isspace c) eqn:Hc; [exact IH | exact Hc].
Qed.

Lemma lstrip_fix : forall s, lstripped s -> lstrip s = s.
Proof.
  intros [|c s] H; simpl in *; [reflexivity | now rewrite H].
Qed.

Lemma lstripped_rstrip : forall s, lstripped s -> lstripped (rstrip s).
Proof.
  intros [|c s] H; [exact I|].
  cbn [rstrip]. simpl in H.
  destruct (rstrip s); [rewrite H|]; exact H.
Qed.

Lemma strip_idem : forall s, strip (strip s) = strip s.
Proof.
  intros s. unfold strip.
  rewrite lstrip_fix by apply lstripped_rstrip, lstripped_lstrip.
  apply rstrip_idem.
Qed.

(** White space around a text does not survive [strip]. *)
Lemma strip_between_spaces : forall a b s,
  isspace a = true -> isspace b = true ->
  strip (a :: s ++ [b]) = strip s.
Proof.
  intros a b s Ha Hb. unfold strip. cbn [lstrip]. rewrite Ha. clear a Ha.
  induction s as [|c s IH].
  - cbn [app lstrip]. now rewrite Hb.
  - cbn [app lstrip]. destruct (isspace c); [exact IH|].
    change (c :: s ++ [b]) with ((c :: s) ++ [b]).
    now apply rstrip_snoc_space.
Qed.

Lemma startswith_app : forall p s, startswith (p ++ s) p = true.
Proof.
  induction p as [|a p IH]; intros s; simpl.
  - destruct s; reflexivity.
  - unfold char_eqb. now rewrite N.eqb_refl, IH.
Qed.

Lemma startswith_prefix : forall s p q,
  startswith s (p ++ q) = true -> startswith s p = true.
Proof.
  intros s p. revert s. induction p as [|a p IH]; intros s q H.
  - destruct s; reflexivity.
  - destruct s as [|b s]; simpl in *; [discriminate|].
    apply andb_true_iff in H as [Hc Hs]. rewrite Hc. simpl. eauto.
Qed.

Lemma endswith_app : forall s p, endswith (s ++ p) p = true.
Proof.
  intros s p. unfold endswith. rewrite rev_app_distr. apply startswith_app.
Qed.

Lemma slice_to_neg_app : forall (s p : pystr),
  slice_to_neg (List.length p) (s ++ p) = s.
Proof.
  intros s p. unfold slice_to_neg. rewrite length_app.
  replace (List.length s + List.length p - List.length p)%nat
    with (List.length s + 0)%nat by lia.
  rewrite firstn_app_2. simpl. apply app_nil_r.
Qed.

(** A text that carries no fence at either end goes through lines 63 to 69
    unchanged but for the white space around it. *)
Lemma strip_fences_plain : forall t,
  startswith t FENCE = false -> endswith t FENCE = false ->
  strip_fences t = strip t.
Proof.
  intros t Hs He. unfold strip_fences.
  assert (Hj : startswith t FENCE_JSON = false).
  { destruct (startswith t FENCE_JSON) eqn:E; [|reflexivity].
    change FENCE_JSON with (FENCE ++ lit "json") in E.
    apply startswith_prefix in E. congruence. }
  now rewrite Hj, Hs, He.
Qed.

(** The text that reaches the decoder when the response is a payload
    between a line [```json] and a line [```]. *)
Lemma clean_response_fenced_json : forall payload,
  clean_response (FENCE_JSON ++ NEWLINE ++ payload ++ NEWLINE ++ FENCE)
  = strip payload.
Proof.
  intros payload. unfold clean_response.
  assert (Hstrip : forall w,
    strip (FENCE_JSON ++ w ++ FENCE) = FENCE_JSON ++ w ++ FENCE).
  { intros w. unfold strip. rewrite lstrip_fix by reflexivity.
    change FENCE with ([96; 96] ++ [96]).
    rewrite !app_assoc. now apply rstrip_snoc_nonspace. }
  replace (FENCE_JSON ++ NEWLINE ++ payload ++ NEWLINE ++ FENCE)
    with (FENCE_JSON ++ (NEWLINE ++ payload ++ NEWLINE) ++ FENCE)
    by now rewrite <- !app_assoc.
  rewrite Hstrip. unfold strip_fences.
  rewrite startswith_app.
  change (slice_from 7 (FENCE_JSON ++ (NEWLINE ++ payload ++ NEWLINE) ++ FENCE))
    with ((NEWLINE ++ payload ++ NEWLINE) ++ FENCE).
  change (startswith ((NEWLINE ++ payload ++ NEWLINE) ++ FENCE) FENCE)
    with false. cbv iota.
  rewrite endswith_app.
  change 3%nat with (List.length FENCE). rewrite slice_to_neg_app.
  now apply strip_between_spaces.
Qed.

(** The same between a line [```] and a line [```]. *)
Lemma clean_response_fenced_plain : forall payload,
  clean_response (FENCE ++ NEWLINE ++ payload ++ NEWLINE ++ FENCE)
  = strip payload.
Proof.
  intros payload. unfold clean_response.
  assert (Hstrip : forall w,
    strip (FENCE ++ w ++ FENCE) = FENCE ++ w ++ FENCE).
  { intros w. unfold strip. rewrite lstrip_fix by reflexivity.
    change (FENCE ++ w ++ FENCE) with (FENCE ++ w ++ [96; 96] ++ [96]).
    rewrite !app_assoc. now apply rstrip_snoc_nonspace. }
  replace (FENCE ++ NEWLINE ++ payload ++ NEWLINE ++ FENCE)
    with (FENCE ++ (NEWLINE ++ payload ++ NEWLINE) ++ FENCE)
    by now rewrite <- !app_assoc.
  rewrite Hstrip. unfold strip_fences.
  change (startswith (FENCE ++ (NEWLINE ++ payload ++ NEWLINE) ++ FENCE)
                     FENCE_JSON) with false. cbv iota.
  rewrite startswith_app.
  change (slice_from 3 (FENCE ++ (NEWLINE ++ payload ++ NEWLINE) ++ FENCE))
    with ((NEWLINE ++ payload ++ NEWLINE) ++ FENCE).
  change (startswith ((NEWLINE ++ payload ++ NEWLINE) ++ FENCE) FENCE)
    with false. cbv iota.
  rewrite endswith_app.
  change 3%nat with (List.length FENCE). rewrite slice_to_neg_app.
  now apply strip_between_spaces.
Qed.

(** The text that reaches the decoder when the response carries no fence. *)
Lemma clean_response_plain : forall payload,
  startswith (strip payload) FENCE = false ->
  endswith (strip payload) FENCE = false ->
  clean_response payload = strip payload.
Proof.
  intros payload Hs He. unfold clean_response.
  rewrite strip_fences_plain by assumption. apply strip_idem.
Qed.

(** ** The validated output *)

Lemma snd_report : forall validated, snd (report validated) = validated.
Proof. intros [|q qs]; reflexivity. Qed.

Lemma record_as_built_of_valid : forall q,
  is_valid_question q = true -> record_as_built (ensure_explanation q).
Proof.
  intros q Hv.
  destruct (is_valid_question_inv _ Hv)
    as (d & options & answer & -> & Hq & Ho & Hl & Ha & Hi & Hr).
  rewrite ensure_explanation_dict.
  exists (with_explanation d), options, answer.
  repeat split; auto using with_explanation_get,
    with_explanation_contains_old, with_explanation_contains.
  intros Hb. destruct answer; try discriminate.
  - now contradiction (Hb b).
  - exists z. split; [reflexivity|].
    unfold index_in_range in Hr. cbn [int_value] in Hr.
    apply andb_true_iff in Hr as [H1 H2].
    apply Z.leb_le in H1. apply Z.ltb_lt in H2. lia.
Qed.

Lemma validate_questions_built : forall items,
  Forall record_as_built (validate_questions items).
Proof.
  intros items. rewrite validate_questions_eq.
  induction items as [|q items IH]; cbn [filter List.map]; [constructor|].
  destruct (is_valid_question q) eqn:Hv; [|exact IH].
  cbn [List.map]. constructor; [now apply record_as_built_of_valid | exact IH].
Qed.


Lemma validate_questions_drop : forall pre q post,
  is_valid_question q = false ->
  validate_questions (pre ++ q :: post) = validate_questions (pre ++ post).
Proof.
  intros pre q post Hq. rewrite !validate_questions_eq, !filter_app.
  cbn [filter]. now rewrite Hq.
Qed.

Lemma parseAndValidate_decoded : forall json_loads text v items,
  json_loads (clean_response text) = Decoded v ->
  iterate v = Returned items ->
  parseAndValidate json_loads text
  = Returned (report (validate_questions items)).
Proof.
  intros json_loads text v items Hd Hi. unfold parseAndValidate.
  now rewrite Hd, Hi.
Qed.

Lemma parseAndValidate_records : forall json_loads text log records,
  parseAndValidate json_loads text = Returned (log, records) ->
  records = []
  \/ exists v items,
       json_loads (clean_response text) = Decoded v
       /\ iterate v = Returned items
       /\ records = validate_questions items.
Proof.
  intros json_loads text log records H. unfold parseAndValidate in H.
  destruct (json_loads (clean_response text)) as [v|e|e] eqn:Hd.
  - destruct (iterate v) as [items|e] eqn:Hi; [|discriminate].
    right. exists v, items. repeat split; auto.
    injection H as H. rewrite <- (snd_report (validate_questions items)).
    now rewrite H.
  - injection H as _ H. now left.
  - discriminate.
Qed.




(** ** Arrays of valid questions *)

Lemma valid_question_object_accepted : forall q,
  valid_question_object q -> is_valid_question q = true.
Proof.
  intros q (d & options & z & -> & Hq & Ho & Hl & Ha & Hz).
  apply (@is_valid_question_intro d options (VInt z) Hq Ho Hl Ha);
    [reflexivity|].
  unfold index_in_range. cbn [int_value]. apply andb_true_iff. split.
  - apply Z.leb_le. lia.
  - apply Z.ltb_lt. lia.
Qed.

Lemma filter_all : forall (p : value -> bool) l,
  Forall (fun q => p q = true) l -> filter p l = l.
Proof.
  intros p l H. induction H as [|q l Hq _ IH]; simpl; [reflexivity|].
  now rewrite Hq, IH.
Qed.

Lemma filter_none : forall (p : value -> bool) l,
  (forall q, In q l -> p q = false) -> filter p l = [].
Proof.
  intros p l H. induction l as [|q l IH]; simpl; [reflexivity|].
  rewrite (H q) by now left. apply IH. intros q' Hq'. apply H. now right.
Qed.

(** C2, as amended.  When the text that reaches the decoder is an array
    that is not empty and all of whose elements are valid question
    objects, parseAndValidate returns as many records as the array has
    elements, each the element with the placeholder set as its explanation
    if it had none, and reports success. *)
Theorem valid_array_all_returned :
  forall json_loads text qs,
    json_loads (clean_response text) = Decoded (VList qs) ->
    qs <> [] ->
    Forall valid_question_object qs ->
    exists records,
      parseAndValidate json_loads text
      = Returned ([St_success (msg_success (List.length qs))], records)
      /\ List.length records = List.length qs
      /\ ~ signals_error [St_success (msg_success (List.length qs))]
      /\ Forall2 (fun q r =>
                    exists d,
                      q = VDict d
                      /\ r = VDict (with_explanation d)
                      /\ (dict_contains KEY_EXPLANATION d = false ->
                          dict_get KEY_EXPLANATION (with_explanation d)
                          = Some (VStr EXPLANATION_PLACEHOLDER)))
                 qs records.
Proof.
  intros json_loads text qs Hd Hne Hall.
  exists (List.map ensure_explanation qs).
  assert (Hvalid : Forall (fun q => is_valid_question q = true) qs).
  { eapply Forall_impl; [|exact Hall].
    intros q. apply valid_question_object_accepted. }
  repeat split.
  - rewrite (parseAndValidate_decoded json_loads text Hd eq_refl).
    rewrite validate_questions_eq, (filter_all _ Hvalid).
    destruct qs as [|q qs]; [congruence|].
    unfold report. cbn [List.map List.length]. now rewrite length_map.
  - apply length_map.
  - intros [t [Ht|[]]]. discriminate.
  - clear Hd Hne Hvalid. induction Hall as [|q qs Hq _ IH]; cbn [List.map].
    + constructor.
    + constructor; [|exact IH].
      destruct Hq as (d & options & z & -> & _).
      exists d. rewrite ensure_explanation_dict. repeat split.
      intros Habs. unfold with_explanation. rewrite Habs.
      now apply dict_get_app_new.
Qed.

Lemma valid_array_all_returned_witness :
  exists records,
    parseAndValidate RefJson.loads EXAMPLE_ONE_QUESTION
    = Returned ([St_success (msg_success 1)], records)
    /\ List.length records = 1%nat.
Proof.
  destruct (@valid_array_all_returned RefJson.loads EXAMPLE_ONE_QUESTION
              [VDict [ (KEY_QUESTION, VStr (lit "Q1"));
                       (KEY_OPTIONS,
                        VList [VStr (lit "A"); VStr (lit "B"); VStr (lit "C")]);
                       (KEY_CORRECT_ANSWER, VInt 1) ]])
    as (records & Hr & Hl & _).
  - vm_compute. reflexivity.
  - discriminate.
  - constructor; [|constructor].
    exists [ (KEY_QUESTION, VStr (lit "Q1"));
             (KEY_OPTIONS,
              VList [VStr (lit "A"); VStr (lit "B"); VStr (lit "C")]);
             (KEY_CORRECT_ANSWER, VInt 1) ],
           [VStr (lit "A"); VStr (lit "B"); VStr (lit "C")], 1%Z.
    repeat split; try reflexivity; simpl; lia.
  - exists records. split; [exact Hr | exact Hl].
Defined.

(** C2 as the spec states it fails on the empty array: all of its elements
    are valid, none being there, and the result is an error. *)
Lemma empty_array_is_an_error :
  RefJson.loads (clean_response (lit "[]")) = Decoded (VList [])
  /\ Forall valid_question_object []
  /\ parseAndValidate RefJson.loads (lit "[]") = Returned (NO_VALID_QUESTIONS, [])
  /\ signals_error NO_VALID_QUESTIONS.
Proof.
  repeat split; try (vm_compute; reflexivity).
  - constructor.
  - exists MSG_NO_VALID. now left.
Qed.

(** ** Texts the decoder rejects *)

(** C3, as amended.  When the decoder rejects the cleaned text with a
    [JSONDecodeError], parseAndValidate reports the parse error and the
    first 500 characters at most of the cleaned text, and returns the
    empty list. *)
Theorem rejected_text_is_malformed :
  forall json_loads text e,
    json_loads (clean_response text) = JSONDecodeError e ->
    exists excerpt rest,
      parseAndValidate json_loads text
      = Returned ([St_error (msg_parse_error e);
                   St_error (lit "Raw Gemini output:" ++ NEWLINE
                               ++ excerpt ++ lit "...")], [])
      /\ clean_response text = excerpt ++ rest
      /\ (List.length excerpt <= 500)%nat
      /\ (rest <> [] -> List.length excerpt = 500%nat)
      /\ signals_malformed
           [St_error (msg_parse_error e);
            St_error (lit "Raw Gemini output:" ++ NEWLINE
                        ++ excerpt ++ lit "...")].
Proof.
  intros json_loads text e Hd.
  exists (firstn 500 (clean_response text)), (skipn 500 (clean_response text)).
  repeat split.
  - unfold parseAndValidate. rewrite Hd. reflexivity.
  - symmetry. apply firstn_skipn.
  - apply firstn_le_length.
  - intros Hrest. rewrite length_firstn. apply Nat.min_l.
    destruct (Nat.le_gt_cases 500 (List.length (clean_response text)))
      as [Hle|Hgt]; [exact Hle|].
    rewrite skipn_all2 in Hrest by lia. congruence.
  - exists e, (firstn 500 (clean_response text)). reflexivity.
Qed.

Lemma rejected_text_is_malformed_witness :
  exists excerpt rest,
    parseAndValidate RefJson.loads (lit "Sorry, I cannot help with that.")
    = Returned ([St_error (msg_parse_error
                   (lit "Expecting value: line 1 column 1 (char 0)"));
                 St_error (lit "Raw Gemini output:" ++ NEWLINE
                             ++ excerpt ++ lit "...")], [])
    /\ clean_response (lit "Sorry, I cannot help with that.") = excerpt ++ rest
    /\ (List.length excerpt <= 500)%nat.
Proof.
  destruct (@rejected_text_is_malformed RefJson.loads
              (lit "Sorry, I cannot help with that.")
              (lit "Expecting value: line 1 column 1 (char 0)"))
    as (excerpt & rest & H1 & H2 & H3 & _).
  - vm_compute. reflexivity.
  - exists excerpt, rest. repeat split; assumption.
Defined.

(** C3 as the spec states it fails on a text that is JSON and not an
    array: the decoder accepts the object, the loop runs over its keys, and
    the report is that of an array without a valid element. *)
Lemma json_object_is_not_malformed :
  RefJson.loads (clean_response (dq "{'a': 1}"))
  = Decoded (VDict [(lit "a", VInt 1)])
  /\ parseAndValidate RefJson.loads (dq "{'a': 1}")
     = Returned (NO_VALID_QUESTIONS, [])
  /\ ~ signals_malformed NO_VALID_QUESTIONS.
Proof.
  repeat split; try (vm_compute; reflexivity).
  intros (e & excerpt & H). discriminate.
Qed.

(** ** Arrays without a valid question *)

(** C4.  When the text that reaches the decoder is an array none of whose
    elements passes the test of lines 77 to 84, the empty array among
    them, parseAndValidate returns the empty list and reports that no
    valid question was generated. *)
Theorem no_valid_element_no_questions :
  forall json_loads text qs,
    json_loads (clean_response text) = Decoded (VList qs) ->
    (forall q, In q qs -> is_valid_question q = false) ->
    parseAndValidate json_loads text = Returned (NO_VALID_QUESTIONS, []).
Proof.
  intros json_loads text qs Hd Hnone.
  rewrite (parseAndValidate_decoded json_loads text Hd eq_refl).
  rewrite validate_questions_eq, (filter_none _ _ Hnone). reflexivity.
Qed.

Lemma no_valid_element_no_questions_witness :
  parseAndValidate RefJson.loads
    (dq "[{'question':'Q','options':['only one'],'correct_answer':0}, 7]")
  = Returned (NO_VALID_QUESTIONS, []).
Proof.
  apply (@no_valid_element_no_questions RefJson.loads _
           [VDict [ (KEY_QUESTION, VStr (lit "Q"));
                    (KEY_OPTIONS, VList [VStr (lit "only one")]);
                    (KEY_CORRECT_ANSWER, VInt 0) ];
            VInt 7]).
  - vm_compute. reflexivity.
  - intros q [<-|[<-|[]]]; reflexivity.
Defined.

(** ** Fenced responses *)

(** What parseAndValidate does depends on the cleaned text only. *)
Lemma parseAndValidate_clean : forall json_loads text text',
  clean_response text = clean_response text' ->
  parseAndValidate json_loads text = parseAndValidate json_loads text'.
Proof.
  intros json_loads text text' H. unfold parseAndValidate. now rewrite H.
Qed.

(** C5, as amended.  For every payload that, once stripped, neither begins
    nor ends with three backticks, the payload between a line [```json] and
    a line [```], and the payload between a line [```] and a line [```],
    give the result the payload alone gives. *)
Theorem fenced_same_as_unfenced :
  forall json_loads payload,
    startswith (strip payload) FENCE = false ->
    endswith (strip payload) FENCE = false ->
    parseAndValidate json_loads
      (FENCE_JSON ++ NEWLINE ++ payload ++ NEWLINE ++ FENCE)
    = parseAndValidate json_loads payload
    /\ parseAndValidate json_loads
         (FENCE ++ NEWLINE ++ payload ++ NEWLINE ++ FENCE)
       = parseAndValidate json_loads payload.
Proof.
  intros json_loads payload Hs He.
  split; apply parseAndValidate_clean.
  - now rewrite clean_response_fenced_json, clean_response_plain.
  - now rewrite clean_response_fenced_plain, clean_response_plain.
Qed.

Lemma fenced_same_as_unfenced_witness :
  parseAndValidate RefJson.loads
    (FENCE_JSON ++ NEWLINE ++ EXAMPLE_ONE_QUESTION ++ NEWLINE ++ FENCE)
  = parseAndValidate RefJson.loads EXAMPLE_ONE_QUESTION
  /\ parseAndValidate RefJson.loads
       (FENCE ++ NEWLINE ++ EXAMPLE_ONE_QUESTION ++ NEWLINE ++ FENCE)
     = parseAndValidate RefJson.loads EXAMPLE_ONE_QUESTION.
Proof.
  apply (@fenced_same_as_unfenced RefJson.loads EXAMPLE_ONE_QUESTION);
    vm_compute; reflexivity.
Defined.

(** C5 as the spec states it fails for a language tag other than [json]:
    the tag stays in the text and the decoder rejects it, while the payload
    alone is an empty array. *)
Lemma other_language_tag_not_stripped :
  clean_response (lit "```python" ++ NEWLINE ++ lit "[]" ++ NEWLINE ++ FENCE)
  = lit "python" ++ NEWLINE ++ lit "[]"
  /\ parseAndValidate RefJson.loads
       (lit "```python" ++ NEWLINE ++ lit "[]" ++ NEWLINE ++ FENCE)
     = Returned ([St_error (msg_parse_error
                    (lit "Expecting value: line 1 column 1 (char 0)"));
                  St_error (lit "Raw Gemini output:" ++ NEWLINE
                              ++ (lit "python" ++ NEWLINE ++ lit "[]")
                              ++ lit "...")], [])
  /\ parseAndValidate RefJson.loads (lit "[]")
     = Returned (NO_VALID_QUESTIONS, []).
Proof. repeat split; vm_compute; reflexivity. Qed.

(** ** The index of the correct answer *)

(** An element whose [correct_answer] is an integer out of bounds, or is
    neither an integer nor a boolean, does not pass the test. *)
Lemma bad_answer_rejected : forall d answer,
  dict_get KEY_CORRECT_ANSWER d = Some answer ->
  (forall b, answer <> VBool b) ->
  (forall z options,
     answer = VInt z ->
     dict_get KEY_OPTIONS d = Some (VList options) ->
     (z < 0 \/ Z.of_nat (List.length options) <= z)%Z) ->
  is_valid_question (VDict d) = false.
Proof.
  intros d answer Ha Hb Hout.
  destruct (is_valid_question (VDict d)) eqn:Hv; [|reflexivity].
  destruct (is_valid_question_inv _ Hv)
    as (d' & options & answer' & Hd & _ & Ho & _ & Ha' & Hi & Hr).
  injection Hd as <-. rewrite Ha in Ha'. injection Ha' as <-.
  destruct answer; try discriminate.
  - now contradiction (Hb b).
  - destruct (Hout z options eq_refl Ho) as [H|H];
      unfold index_in_range in Hr; cbn [int_value] in Hr;
      apply andb_true_iff in Hr as [H1 H2];
      apply Z.leb_le in H1; apply Z.ltb_lt in H2; lia.
Qed.

(** C6 at its failing input.  The [correct_answer] below is the JSON
    boolean [true], which is not an integer; [isinstance(True, int)] holds
    in Python, so the element passes lines 83 and 84 and is returned. *)
Theorem boolean_answer_is_kept :
  RefJson.loads
    (dq "[{'question':'Q','options':['A','B'],'correct_answer':true}]")
  = Decoded (VList [VDict [ (KEY_QUESTION, VStr (lit "Q"));
                            (KEY_OPTIONS, VList [VStr (lit "A"); VStr (lit "B")]);
                            (KEY_CORRECT_ANSWER, VBool true) ]])
  /\ parseAndValidate RefJson.loads
       (dq "[{'question':'Q','options':['A','B'],'correct_answer':true}]")
     = Returned ([St_success (lit "Successfully generated 1 questions!")],
                 [VDict [ (KEY_QUESTION, VStr (lit "Q"));
                          (KEY_OPTIONS, VList [VStr (lit "A"); VStr (lit "B")]);
                          (KEY_CORRECT_ANSWER, VBool true);
                          (KEY_EXPLANATION, VStr EXPLANATION_PLACEHOLDER) ]]).
Proof. split; vm_compute; reflexivity. Qed.

(** ** Order and identity of the records *)

Lemma positions_sorted : forall (p : value -> bool) l,
  StronglySorted lt (positions p l).
Proof.
  intros p l. unfold positions.
  assert (H : forall a n, StronglySorted lt (seq a n)).
  { intros a n. revert a. induction n as [|n IH]; intros a; simpl.
    - constructor.
    - constructor; [apply IH|].
      apply Forall_forall. intros x Hx. apply in_seq in Hx. lia. }
  generalize (H 0%nat (List.length l)).
  generalize (seq 0 (List.length l)). intros r Hr.
  induction Hr as [|a r Hr IH Ha]; simpl; [constructor|].
  destruct (p (nth a l VNone)); [|exact IH].
  constructor; [exact IH|].
  apply Forall_forall. intros x Hx. apply filter_In in Hx as [Hx _].
  rewrite Forall_forall in Ha. now apply Ha.
Qed.

Lemma positions_In : forall (p : value -> bool) l i,
  In i (positions p l)
  <-> (i < List.length l)%nat /\ p (nth i l VNone) = true.
Proof.
  intros p l i. unfold positions. rewrite filter_In, in_seq.
  split; intros [H1 H2]; split; auto; lia.
Qed.

Lemma filter_settled : forall qs,
  filter is_valid_question (List.map settled qs)
  = List.map ensure_explanation (filter is_valid_question qs).
Proof.
  induction qs as [|q qs IH]; [reflexivity|].
  cbn [List.map filter]. rewrite is_valid_question_settled.
  destruct (is_valid_question q) eqn:Hv; cbn [List.map]; rewrite IH.
  - unfold settled. now rewrite Hv.
  - reflexivity.
Qed.

(** C9.  For a decoded array, the list parseAndValidate returns is the
    list the loop builds: references to the objects of the array at the
    positions whose element passes the test, in increasing order, each
    position once and none beyond the array; read through the references,
    it is the sublist of the array, as the loop leaves it, of the elements
    that pass the test. *)
Theorem validated_is_subsequence :
  forall json_loads text qs,
    json_loads (clean_response text) = Decoded (VList qs) ->
    let st := validate_loop qs in
    (exists log,
       parseAndValidate json_loads text = Returned (log, deref st))
    /\ validated_questions st = positions is_valid_question qs
    /\ StronglySorted lt (validated_questions st)
    /\ NoDup (validated_questions st)
    /\ (forall i, In i (validated_questions st)
                  <-> (i < List.length qs)%nat
                      /\ is_valid_question (nth i qs VNone) = true)
    /\ List.length (objects st) = List.length qs
    /\ deref st = filter is_valid_question (objects st)
    /\ deref st = List.map ensure_explanation (filter is_valid_question qs).
Proof.
  intros json_loads text qs Hd st. subst st.
  change (deref (validate_loop qs)) with (validate_questions qs).
  split.
  { exists (fst (report (validate_questions qs))).
    rewrite (parseAndValidate_decoded json_loads text Hd eq_refl).
    rewrite <- (snd_report (validate_questions qs)) at 3.
    now destruct (report (validate_questions qs)). }
  rewrite validate_loop_refs, validate_loop_objects.
  assert (Hs := positions_sorted is_valid_question qs).
  split; [reflexivity|]. split; [exact Hs|]. split.
  { clear - Hs. induction Hs as [|a r _ IH Ha]; constructor; [|exact IH].
    intros Hin. rewrite Forall_forall in Ha. specialize (Ha a Hin). lia. }
  split; [intros i; apply positions_In|].
  split; [apply length_map|].
  split; [|apply validate_questions_eq].
  now rewrite filter_settled, validate_questions_eq.
Qed.

Lemma validated_is_subsequence_witness :
  validated_questions
    (validate_loop
       [VInt 7;
        VDict [ (KEY_QUESTION, VStr (lit "Q1"));
                (KEY_OPTIONS, VList [VStr (lit "A"); VStr (lit "B")]);
                (KEY_CORRECT_ANSWER, VInt 0) ];
        VNone;
        VDict [ (KEY_QUESTION, VStr (lit "Q2"));
                (KEY_OPTIONS, VList [VStr (lit "A"); VStr (lit "B")]);
                (KEY_CORRECT_ANSWER, VInt 1) ]])
  = positions is_valid_question
      [VInt 7;
       VDict [ (KEY_QUESTION, VStr (lit "Q1"));
               (KEY_OPTIONS, VList [VStr (lit "A"); VStr (lit "B")]);
               (KEY_CORRECT_ANSWER, VInt 0) ];
       VNone;
       VDict [ (KEY_QUESTION, VStr (lit "Q2"));
               (KEY_OPTIONS, VList [VStr (lit "A"); VStr (lit "B")]);
               (KEY_CORRECT_ANSWER, VInt 1) ]].
Proof.
  refine (proj1 (proj2 (@validated_is_subsequence RefJson.loads
    (dq "[7, {'question':'Q1','options':['A','B'],'correct_answer':0}, null, {'question':'Q2','options':['A','B'],'correct_answer':1}]")
    _ _))).
  vm_compute. reflexivity.
Defined.

(** C10.  For an element that passes the test, the record in the output is
    the object of the array at the element's position; it has the entries
    of the element in their order, followed by the placeholder explanation
    when the element had none, so that every key of the element keeps its
    value and no key but [explanation] is new. *)
Theorem accepted_element_kept_intact :
  forall qs i q,
    nth_error qs i = Some q ->
    is_valid_question q = true ->
    let st := validate_loop qs in
    exists d,
      q = VDict d
      /\ In i (validated_questions st)
      /\ nth_error (objects st) i = Some (VDict (with_explanation d))
      /\ In (VDict (with_explanation d)) (validate_questions qs)
      /\ (dict_contains KEY_EXPLANATION d = true -> with_explanation d = d)
      /\ (dict_contains KEY_EXPLANATION d = false ->
          with_explanation d
          = d ++ [(KEY_EXPLANATION, VStr EXPLANATION_PLACEHOLDER)])
      /\ (forall k v, dict_get k d = Some v ->
                      dict_get k (with_explanation d) = Some v)
      /\ (forall k, k <> KEY_EXPLANATION ->
                    dict_get k (with_explanation d) = dict_get k d).
Proof.
  intros qs i q Hi Hv st. subst st.
  destruct (is_valid_question_inv _ Hv) as (d & _ & _ & -> & _).
  exists d. rewrite validate_loop_refs, validate_loop_objects.
  assert (Hlt : (i < List.length qs)%nat)
    by (apply nth_error_Some; congruence).
  assert (Hobj : nth_error (List.map settled qs) i
                 = Some (VDict (with_explanation d))).
  { rewrite nth_error_map, Hi. cbn [option_map]. unfold settled.
    now rewrite Hv, ensure_explanation_dict. }
  repeat split.
  - apply positions_In. split; [exact Hlt|].
    now rewrite (nth_error_nth _ _ _ Hi).
  - exact Hobj.
  - rewrite validate_questions_eq, <- ensure_explanation_dict.
    apply in_map, filter_In. split; [|exact Hv].
    eapply nth_error_In; eauto.
  - intros H. unfold with_explanation. now rewrite H.
  - intros H. unfold with_explanation. now rewrite H.
  - intros k v. apply with_explanation_get.
  - intros k. apply with_explanation_get_other.
Qed.

Lemma accepted_element_kept_intact_witness :
  exists d,
    VDict [ (KEY_QUESTION, VStr (lit "Q")); (lit "source", VStr (lit "p. 3"));
            (KEY_OPTIONS, VList [VInt 1; VInt 2]); (KEY_CORRECT_ANSWER, VInt 1) ]
    = VDict d
    /\ nth_error
         (objects (validate_loop
            [VInt 7;
             VDict [ (KEY_QUESTION, VStr (lit "Q"));
                     (lit "source", VStr (lit "p. 3"));
                     (KEY_OPTIONS, VList [VInt 1; VInt 2]);
                     (KEY_CORRECT_ANSWER, VInt 1) ]])) 1
       = Some (VDict (with_explanation d)).
Proof.
  destruct (@accepted_element_kept_intact
              [VInt 7;
               VDict [ (KEY_QUESTION, VStr (lit "Q"));
                       (lit "source", VStr (lit "p. 3"));
                       (KEY_OPTIONS, VList [VInt 1; VInt 2]);
                       (KEY_CORRECT_ANSWER, VInt 1) ]]
              1%nat
              (VDict [ (KEY_QUESTION, VStr (lit "Q"));
                       (lit "source", VStr (lit "p. 3"));
                       (KEY_OPTIONS, VList [VInt 1; VInt 2]);
                       (KEY_CORRECT_ANSWER, VInt 1) ]))
    as (d & Hq & _ & Hobj & _).
  - reflexivity.
  - vm_compute. reflexivity.
  - exists d. split; [exact Hq | exact Hobj].
Defined.

(** ** The JSON export *)

Lemma forallb_range : forall (P : N -> bool) lo count,
  forallb P (List.map (fun k => lo + N.of_nat k) (seq 0 (N.to_nat count)))
  = true ->
  forall n, lo <= n < lo + count -> P n = true.
Proof.
  intros P lo count H n Hn. rewrite forallb_forall in H. apply H.
  apply in_map_iff. exists (N.to_nat (n - lo)). split; [lia|].
  apply in_seq. lia.
Qed.

Lemma year_four_digits : forall y,
  1000 <= y <= 9999 -> prints_four_digits y = true.
Proof.
  intros y Hy.
  apply (@forallb_range prints_four_digits 1000 9000);
    [vm_compute; reflexivity | lia].
Qed.

Lemma two_digits_are_digits : forall n,
  n <= 99 -> forallb is_digit (two_digits n) = true.
Proof.
  intros n Hn.
  apply (@forallb_range (fun n => forallb is_digit (two_digits n)) 0 100);
    [vm_compute; reflexivity | lia].
Qed.

Lemma strftime_shape : forall now,
  datetime_ok now = true -> is_ymd_hms (strftime_ymd_hms now) = true.
Proof.
  intros [y mo d h mi s] H. unfold datetime_ok in H. cbn [year month day
    hour minute second] in H.
  repeat (apply andb_true_iff in H as [H ?]).
  repeat match goal with
         | Hle : (_ <=? _) = true |- _ => apply N.leb_le in Hle
         end.
  assert (Hy : prints_four_digits y = true) by (apply year_four_digits; lia).
  assert (Hmo := @two_digits_are_digits mo ltac:(lia)).
  assert (Hd := @two_digits_are_digits d ltac:(lia)).
  assert (Hh := @two_digits_are_digits h ltac:(lia)).
  assert (Hmi := @two_digits_are_digits mi ltac:(lia)).
  assert (Hs := @two_digits_are_digits s ltac:(lia)).
  unfold strftime_ymd_hms. cbn [year month day hour minute second].
  unfold prints_four_digits in Hy.
  destruct (str_of_N y) as [|y1 [|y2 [|y3 [|y4 [|]]]]]; try discriminate.
  unfold two_digits in *. cbn [forallb] in *.
  repeat match goal with
         | Hc : _ && _ = true |- _ => apply andb_true_iff in Hc as [? ?]
         end.
  cbn [app is_ymd_hms forallb].
  repeat match goal with
         | Hc : is_digit _ = true |- _ => rewrite Hc; clear Hc
         end.
  reflexivity.
Qed.

(** C7.  For every list of records, every title and every reading of the
    clock, the export is the serialisation of an object with the fields
    [quiz_title], the title; [created_date], a text of the shape
    YYYY-MM-DD HH:MM:SS; [total_questions], the length of the list; and
    [questions], the list itself. *)
Theorem json_export_fields :
  forall json_dumps now records quiz_title,
    datetime_ok now = true ->
    exists created_date,
      save_quiz_to_file json_dumps now records quiz_title
      = json_dumps
          (VDict [ (lit "quiz_title", VStr quiz_title);
                   (lit "created_date", VStr created_date);
                   (lit "total_questions",
                    VInt (Z.of_nat (List.length records)));
                   (lit "questions", VList records) ]) 2%nat
      /\ created_date = strftime_ymd_hms now
      /\ is_ymd_hms created_date = true.
Proof.
  intros json_dumps now records quiz_title Hnow.
  exists (strftime_ymd_hms now). repeat split.
  now apply strftime_shape.
Qed.

Lemma json_export_fields_witness :
  exists created_date,
    save_quiz_to_file RefEncoder.dumps EXAMPLE_CLOCK [EXAMPLE_ONE_RECORD]
                      (lit "My Quiz")
    = RefEncoder.dumps
        (VDict [ (lit "quiz_title", VStr (lit "My Quiz"));
                 (lit "created_date", VStr created_date);
                 (lit "total_questions", VInt 1);
                 (lit "questions", VList [EXAMPLE_ONE_RECORD]) ]) 2%nat
    /\ created_date = lit "2024-03-09 07:05:00".
Proof.
  destruct (@json_export_fields RefEncoder.dumps EXAMPLE_CLOCK
              [EXAMPLE_ONE_RECORD] (lit "My Quiz"))
    as (created_date & Hsave & Hdate & _).
  - vm_compute. reflexivity.
  - exists created_date. split; [exact Hsave|].
    rewrite Hdate. vm_compute. reflexivity.
Defined.

(** ** The wizard *)

Lemma key_or_same : forall k, key_or k k = k.
Proof. intros k. unfold key_or. now destruct (key_available k). Qed.

(** What a successful generation tells. *)
Lemma generate_nonempty : forall json_loads key resp q qs,
  snd (generate_questions_with_gemini json_loads key resp) = q :: qs ->
  key_available key = true
  /\ exists text log,
       resp = ApiText text
       /\ parseAndValidate json_loads text = Returned (log, q :: qs).
Proof.
  intros json_loads key resp q qs H.
  unfold generate_questions_with_gemini in H.
  destruct (key_available key); cbn [negb] in H; [|discriminate].
  split; [reflexivity|].
  destruct resp as [text|e]; [|discriminate].
  destruct (parseAndValidate json_loads text) as [[log records]|e] eqn:Hp;
    [|discriminate].
  cbn [snd] in H. subst records. now exists text, log.
Qed.

Lemma on_generate_holds_questions : forall json_loads inp s,
  current_step s = Input ->
  holds_questions (on_generate json_loads inp s).
Proof.
  intros json_loads inp s Hstep. unfold on_generate.
  assert (Hs : holds_questions s)
    by (intros H; now contradiction H).
  destruct (truthy (topic inp) && _); [|exact Hs].
  destruct (key_available _); [|exact Hs].
  destruct (snd _) as [|q qs].
  - intros H. cbn [current_step] in H. now contradiction H.
  - intros _. discriminate.
Qed.

Lemma goto_holds_questions : forall target s,
  questions s <> [] -> holds_questions (goto target s).
Proof. intros target s H _. exact H. Qed.

Lemma main_holds_questions : forall json_loads inp s,
  holds_questions s -> holds_questions (main json_loads inp s).
Proof.
  intros json_loads inp s Hs.
  assert (Hreset : holds_questions reset)
    by (intros H; now contradiction H).
  unfold main. destruct (current_step s) eqn:Hstep.
  - destruct (clicked inp); try exact Hs; try exact Hreset.
    now apply on_generate_holds_questions.
  - assert (Hq : questions s <> []) by (apply Hs; congruence).
    destruct (questions s) as [|q qs] eqn:Eq; [congruence|].
    destruct (renders (q :: qs));
      destruct (clicked inp); try exact Hs; try exact Hreset;
      apply goto_holds_questions; congruence.
  - assert (Hq : questions s <> []) by (apply Hs; congruence).
    destruct (clicked inp); try exact Hs; try exact Hreset;
      apply goto_holds_questions; exact Hq.
Qed.

Lemma reachable_holds_questions : forall json_loads s,
  reachable json_loads s -> holds_questions s.
Proof.
  intros json_loads s H.
  induction H as [|s s' _ IH [inp <-]].
  - intros Hstep. now contradiction Hstep.
  - now apply main_holds_questions.
Qed.

(** C8.  A run that takes the wizard from the input page to the generated
    page was started by the generate button with a topic that is not
    empty and a key that is available, the model answered with a text, and
    parseAndValidate returned from it the list, of one record at least,
    that the session now holds; and a session the wizard reaches on the
    generated page holds a list that is not empty. *)
Theorem generated_only_with_questions :
  forall json_loads,
    (forall inp s,
       current_step s = Input ->
       current_step (main json_loads inp s) = Generated ->
       clicked inp = Generate_Questions
       /\ truthy (topic inp) = true
       /\ key_available (sidebar_key inp) = true
       /\ exists text log q qs,
            response inp = ApiText text
            /\ parseAndValidate json_loads text = Returned (log, q :: qs)
            /\ questions (main json_loads inp s) = q :: qs)
    /\ (forall s,
          reachable json_loads s ->
          current_step s = Generated ->
          questions s <> []).
Proof.
  intros json_loads. split.
  - intros inp s Hstep Hgen. unfold main in *. rewrite Hstep in *.
    destruct (clicked inp) eqn:Hc;
      try (cbn in Hgen; rewrite ?Hstep in Hgen; discriminate).
    split; [reflexivity|].
    unfold on_generate in *. rewrite key_or_same in *.
    destruct (truthy (topic inp)) eqn:Ht; cbn [andb] in *;
      [|rewrite Hstep in Hgen; discriminate].
    destruct (key_available (sidebar_key inp)) eqn:Hk;
      [|rewrite Hstep in Hgen; discriminate].
    split; [reflexivity|]. split; [reflexivity|].
    destruct (snd (generate_questions_with_gemini json_loads
                     (sidebar_key inp) (response inp)))
      as [|q qs] eqn:Hq.
    + cbn [current_step] in Hgen. rewrite Hstep in Hgen. discriminate.
    + destruct (generate_nonempty _ _ _ Hq) as (_ & text & log & Hr & Hp).
      exists text, log, q, qs. repeat split; assumption.
  - intros s Hr Hstep. apply (reachable_holds_questions Hr). congruence.
Qed.

Lemma generated_only_with_questions_witness :
  current_step (main RefJson.loads EXAMPLE_RUN initialize_session_state)
  = Generated
  /\ questions (main RefJson.loads EXAMPLE_RUN initialize_session_state)
     <> []
  /\ truthy (topic EXAMPLE_RUN) = true.
Proof.
  assert (Hstep : current_step (main RefJson.loads EXAMPLE_RUN
                                     initialize_session_state) = Generated)
    by (vm_compute; reflexivity).
  destruct (generated_only_with_questions RefJson.loads) as [Hfirst Hinv].
  split; [exact Hstep|]. split.
  - apply Hinv; [|exact Hstep].
    apply reachable_step with (s := initialize_session_state).
    + apply reachable_init.
    + exists EXAMPLE_RUN. reflexivity.
  - destruct (Hfirst EXAMPLE_RUN initialize_session_state eq_refl Hstep)
      as (_ & Ht & _).
    exact Ht.
Defined.

(** ** The examples of the spec *)

(** The spec's eighth example: a fenced empty array gives an empty result
    and the report that no valid question was generated. *)
Example fenced_empty_array :
  parseAndValidate RefJson.loads
    (FENCE_JSON ++ NEWLINE ++ lit "[]" ++ NEWLINE ++ FENCE)
  = Returned (NO_VALID_QUESTIONS, []).
Proof. vm_compute. reflexivity. Qed.

(** Without a key the model is not asked. *)
Example missing_key_reported : forall json_loads resp,
  generate_questions_with_gemini json_loads None resp
  = ([St_error MSG_KEY_MISSING; St_info MSG_KEY_URL], []).
Proof. reflexivity. Qed.

(** A decoded number cannot be iterated: the handler of line 104 reports
    the [TypeError]. *)
Example json_number_reported_by_handler :
  generate_questions_with_gemini RefJson.loads (Some (lit "secret"))
                                 (ApiText (lit "5"))
  = ([St_error (msg_api_error (lit "'int' object is not iterable"));
      St_info MSG_CHECK_KEY], []).
Proof. vm_compute. reflexivity. Qed.

(* ================================================================== *)
(** * Further properties of the code *)

(** ** Validation, element by element *)

(** Each element is judged on its own: the records of two arrays put end
    to end are the records of the first followed by those of the second,
    and there are never more records than elements. *)
Theorem validation_elementwise : forall qs1 qs2,
  validate_questions (qs1 ++ qs2)
  = validate_questions qs1 ++ validate_questions qs2
  /\ (List.length (validate_questions qs1) <= List.length qs1)%nat.
Proof.
  intros qs1 qs2. rewrite !validate_questions_eq. split.
  - now rewrite filter_app, map_app.
  - rewrite length_map. apply filter_length_le.
Qed.

(** An element whose [options] are missing, are not a list, or are a list
    of fewer than two items is rejected, and the records of the array are
    those of the array without it. *)
Theorem bad_options_dropped : forall d,
  (forall options,
     dict_get KEY_OPTIONS d = Some (VList options) ->
     (List.length options < 2)%nat) ->
  is_valid_question (VDict d) = false
  /\ forall pre post,
       validate_questions (pre ++ VDict d :: post)
       = validate_questions (pre ++ post).
Proof.
  intros d Hshort.
  assert (Hv : is_valid_question (VDict d) = false).
  { destruct (is_valid_question (VDict d)) eqn:Hv; [|reflexivity].
    destruct (is_valid_question_inv _ Hv)
      as (d' & options & answer & Hd & _ & Ho & Hl & _).
    injection Hd as <-. specialize (Hshort options Ho). lia. }
  split; [exact Hv|]. intros pre post. now apply validate_questions_drop.
Qed.

Lemma bad_options_dropped_witness :
  is_valid_question
    (VDict [ (KEY_QUESTION, VStr (lit "Q"));
             (KEY_OPTIONS, VList [VStr (lit "only one")]);
             (KEY_CORRECT_ANSWER, VInt 0) ]) = false.
Proof.
  refine (proj1 (@bad_options_dropped _ _)).
  intros options H. injection H as <-. simpl. lia.
Defined.

Lemma bad_answer_rejected_witness :
  is_valid_question
    (VDict [ (KEY_QUESTION, VStr (lit "Q"));
             (KEY_OPTIONS, VList [VStr (lit "A"); VStr (lit "B")]);
             (KEY_CORRECT_ANSWER, VInt 2) ]) = false.
Proof.
  apply (@bad_answer_rejected _ (VInt 2)).
  - reflexivity.
  - discriminate.
  - intros z options Hz Ho. injection Hz as <-. injection Ho as <-.
    simpl. lia.
Defined.

Lemma ensure_explanation_idem : forall q,
  ensure_explanation (ensure_explanation q) = ensure_explanation q.
Proof.
  intros q. destruct q as [| | | | | |d]; try reflexivity.
  rewrite ensure_explanation_dict.
  unfold ensure_explanation. now rewrite with_explanation_contains.
Qed.

(** Validating validated records changes nothing: each is accepted again
    and none gets a second explanation. *)
Theorem validation_idempotent : forall qs,
  validate_questions (validate_questions qs) = validate_questions qs.
Proof.
  intros qs. rewrite !validate_questions_eq.
  induction qs as [|q qs IH]; [reflexivity|].
  cbn [filter]. destruct (is_valid_question q) eqn:Hv; [|exact IH].
  cbn [List.map filter].
  assert (Hv' : is_valid_question (ensure_explanation q) = true).
  { pose proof (is_valid_question_settled q) as H.
    unfold settled in H. now rewrite Hv in H. }
  rewrite Hv'. cbn [List.map]. now rewrite ensure_explanation_idem, IH.
Qed.

(** The loop never touches an element it rejects: the object is left in
    the array as it was, and no reference to it is kept. *)
Theorem rejected_element_untouched : forall qs i q,
  nth_error qs i = Some q ->
  is_valid_question q = false ->
  nth_error (objects (validate_loop qs)) i = Some q
  /\ ~ In i (validated_questions (validate_loop qs)).
Proof.
  intros qs i q Hi Hv. rewrite validate_loop_objects, validate_loop_refs.
  split.
  - rewrite nth_error_map, Hi. cbn [option_map]. unfold settled.
    now rewrite Hv.
  - intros Hin. apply positions_In in Hin as [_ Hin].
    rewrite (nth_error_nth _ _ _ Hi) in Hin. congruence.
Qed.

Lemma rejected_element_untouched_witness :
  nth_error (objects (validate_loop [VInt 7; EXAMPLE_ONE_RECORD])) 0
  = Some (VInt 7).
Proof.
  refine (proj1 (@rejected_element_untouched [VInt 7; EXAMPLE_ONE_RECORD]
                   0%nat (VInt 7) _ _)); reflexivity.
Defined.

(** ** Responses that are JSON and not an array *)

Lemma strings_are_rejected : forall (A : Type) (f : A -> pystr) l,
  filter is_valid_question (List.map (fun x => VStr (f x)) l) = [].
Proof.
  intros A f l. induction l as [|x l IH]; [reflexivity|exact IH].
Qed.

(** A response that decodes to an object or to a string yields no
    question, whatever it holds: the loop runs over the keys of the object
    or the characters of the string.  A single question object that is not
    wrapped in an array is lost in this way. *)
Theorem object_or_string_yields_nothing :
  forall json_loads text v,
    json_loads (clean_response text) = Decoded v ->
    (exists d, v = VDict d) \/ (exists s, v = VStr s) ->
    parseAndValidate json_loads text = Returned (NO_VALID_QUESTIONS, []).
Proof.
  intros json_loads text v Hd [[d ->]|[s ->]].
  - rewrite (parseAndValidate_decoded json_loads text Hd eq_refl).
    rewrite validate_questions_eq.
    rewrite (strings_are_rejected (fun kv : pystr * value => fst kv)).
    reflexivity.
  - rewrite (parseAndValidate_decoded json_loads text Hd eq_refl).
    rewrite validate_questions_eq.
    rewrite (strings_are_rejected (fun c : char => [c])).
    reflexivity.
Qed.

Lemma object_or_string_yields_nothing_witness :
  parseAndValidate RefJson.loads
    (dq "{'question':'Q1','options':['A','B','C'],'correct_answer':1}")
  = Returned (NO_VALID_QUESTIONS, []).
Proof.
  eapply (@object_or_string_yields_nothing RefJson.loads).
  - vm_compute. reflexivity.
  - left. eexists. reflexivity.
Defined.

(** A response that decodes to [null], a boolean or a number cannot be
    iterated: the [TypeError] reaches the handler of line 104, which
    reports it as an error of the API and returns the empty list. *)
Theorem scalar_reported_as_api_error :
  forall json_loads key text v,
    key_available key = true ->
    json_loads (clean_response text) = Decoded v ->
    is_scalar v = true ->
    generate_questions_with_gemini json_loads key (ApiText text)
    = ([St_error (msg_api_error
                    ([39] ++ type_name v ++ [39]
                       ++ lit " object is not iterable"));
        St_info MSG_CHECK_KEY], []).
Proof.
  intros json_loads key text v Hk Hd Hs.
  unfold generate_questions_with_gemini, parseAndValidate.
  rewrite Hk, Hd. cbn [negb].
  destruct v; try discriminate; reflexivity.
Qed.

Lemma scalar_reported_as_api_error_witness :
  generate_questions_with_gemini RefJson.loads (Some (lit "secret"))
                                 (ApiText (lit "null"))
  = ([St_error (msg_api_error (lit "'NoneType' object is not iterable"));
      St_info MSG_CHECK_KEY], []).
Proof.
  apply (@scalar_reported_as_api_error RefJson.loads (Some (lit "secret"))
           (lit "null") VNone); reflexivity.
Defined.

(** ** What the generator returns *)

(** Whatever the key and the answer of the model, the generator returns
    either the empty list with a log that starts with an error, or a list
    that is not empty with a log that is the one success message counting
    its records; and every record it returns has the shape the loop
    establishes. *)
Theorem generator_outcomes :
  forall json_loads key resp,
    let log := fst (generate_questions_with_gemini json_loads key resp) in
    let records := snd (generate_questions_with_gemini json_loads key resp) in
    Forall record_as_built records
    /\ ((records = [] /\ exists e rest, log = St_error e :: rest)
        \/ (records <> []
            /\ log = [St_success (msg_success (List.length records))])).
Proof.
  intros json_loads key resp. cbv zeta.
  assert (Hfail : forall (log : ui_log) e rest,
            log = St_error e :: rest ->
            Forall record_as_built (snd (log, @nil value))
            /\ ((snd (log, @nil value) = []
                 /\ exists e' rest', fst (log, @nil value) = St_error e' :: rest')
                \/ (snd (log, @nil value) <> []
                    /\ fst (log, @nil value)
                       = [St_success
                            (msg_success (List.length (snd (log, @nil value))))]))).
  { intros log e rest ->. split; [constructor|].
    left. split; [reflexivity|]. now exists e, rest. }
  unfold generate_questions_with_gemini.
  destruct (key_available key); cbn [negb];
    [|eapply Hfail; reflexivity].
  destruct resp as [text|e]; [|eapply Hfail; reflexivity].
  unfold parseAndValidate.
  destruct (json_loads (clean_response text)) as [v|e|e];
    [|eapply Hfail; reflexivity|eapply Hfail; reflexivity].
  destruct (iterate v) as [items|e]; [|eapply Hfail; reflexivity].
  split.
  - rewrite snd_report. apply validate_questions_built.
  - destruct (validate_questions items) as [|r rs].
    + left. split; [reflexivity|]. now exists MSG_NO_VALID, [].
    + right. split; [discriminate | reflexivity].
Qed.

(** ** What cleaning does to a response *)

Lemma part_of_refl : forall s, part_of s s.
Proof. intros s. exists [], []. now rewrite app_nil_r. Qed.

Lemma part_of_trans : forall a b c, part_of a b -> part_of b c -> part_of a c.
Proof.
  intros a b c (p1 & q1 & ->) (p2 & q2 & ->).
  exists (p2 ++ p1), (q1 ++ q2). now rewrite <- !app_assoc.
Qed.

Lemma lstrip_part : forall s, part_of (lstrip s) s.
Proof.
  induction s as [|c s IH]; [apply part_of_refl|].
  cbn [lstrip]. destruct (isspace c); [|apply part_of_refl].
  destruct IH as (p & q & H). exists (c :: p), q. cbn [app]. now rewrite <- H.
Qed.

Lemma rstrip_prefix : forall s, exists after, s = rstrip s ++ after.
Proof.
  induction s as [|c s [after IH]]; [now exists []|].
  cbn [rstrip]. destruct (rstrip s) as [|b r].
  - destruct (isspace c).
    + now exists (c :: s).
    + now exists s.
  - exists after. cbn [app]. now rewrite IH at 1.
Qed.

Lemma rstrip_part : forall s, part_of (rstrip s) s.
Proof.
  intros s. destruct (rstrip_prefix s) as [after H].
  exists [], after. exact H.
Qed.

Lemma skipn_part : forall n (s : pystr), part_of (skipn n s) s.
Proof.
  intros n s. exists (firstn n s), []. rewrite app_nil_r.
  symmetry. apply firstn_skipn.
Qed.

Lemma firstn_part : forall n (s : pystr), part_of (firstn n s) s.
Proof.
  intros n s. exists [], (skipn n s). symmetry. apply firstn_skipn.
Qed.

Lemma strip_part : forall s, part_of (strip s) s.
Proof.
  intros s. unfold strip.
  eapply part_of_trans; [apply rstrip_part | apply lstrip_part].
Qed.

(** Cleaning only takes away from the two ends: the text that reaches the
    decoder is a contiguous part of the response, and it has no white
    space at either end. *)
Theorem cleaned_text_is_inner_part : forall text,
  part_of (clean_response text) text
  /\ strip (clean_response text) = clean_response text.
Proof.
  intros text. unfold clean_response, strip_fences. split.
  - eapply part_of_trans; [apply strip_part|].
    eapply part_of_trans; [|apply strip_part].
    set (t := strip text).
    destruct (startswith t FENCE_JSON);
      destruct (startswith _ FENCE);
      destruct (endswith _ FENCE);
      unfold slice_from, slice_to_neg;
      repeat (first [ apply part_of_refl
                    | apply skipn_part
                    | apply firstn_part
                    | eapply part_of_trans;
                      [first [apply firstn_part | apply skipn_part]|] ]).
  - apply strip_idem.
Qed.

(** ** The sessions the wizard reaches *)

Lemma generate_records_built : forall json_loads key resp,
  Forall record_as_built
         (snd (generate_questions_with_gemini json_loads key resp)).
Proof.
  intros json_loads key resp. unfold generate_questions_with_gemini.
  destruct (key_available key); cbn [negb]; [|constructor].
  destruct resp as [text|e]; [|constructor].
  destruct (parseAndValidate json_loads text) as [[log records]|e] eqn:Hp;
    [|constructor].
  destruct (parseAndValidate_records _ _ Hp)
    as [-> | (v & items & _ & _ & ->)]; cbn [snd].
  - constructor.
  - apply validate_questions_built.
Qed.

Lemma main_questions_built : forall json_loads inp s,
  Forall record_as_built (questions s) ->
  Forall record_as_built (questions (main json_loads inp s)).
Proof.
  intros json_loads inp s Hs. unfold main.
  assert (Hgen : Forall record_as_built
                        (questions (on_generate json_loads inp s))).
  { unfold on_generate.
    destruct (truthy (topic inp) && _); [|exact Hs].
    destruct (key_available _); [|exact Hs].
    destruct (snd _) as [|q qs] eqn:Hq; cbn [questions]; [constructor|].
    rewrite <- Hq. apply generate_records_built. }
  destruct (clicked inp); try (now constructor);
    destruct (current_step s); try exact Hs; try exact Hgen;
    try (now constructor);
    destruct (questions s) eqn:Hq; try exact Hs; try (rewrite Hq; exact Hs);
    destruct (renders _); cbn [goto questions]; rewrite ?Hq; exact Hs.
Qed.

(** Every record a session of the wizard holds went through the loop of
    lines 75 to 90: whatever the pages show or the downloads write has a
    [question], a list of two options at least, a [correct_answer] and an
    [explanation]. *)
Theorem reachable_records_validated : forall json_loads s,
  reachable json_loads s -> Forall record_as_built (questions s).
Proof.
  intros json_loads s H. induction H as [|s s' _ IH [inp <-]].
  - constructor.
  - now apply main_questions_built.
Qed.

Lemma reachable_records_validated_witness :
  Forall record_as_built
         (questions (main RefJson.loads EXAMPLE_RUN initialize_session_state)).
Proof.
  apply (@reachable_records_validated RefJson.loads).
  apply reachable_step with (s := initialize_session_state).
  - apply reachable_init.
  - exists EXAMPLE_RUN. reflexivity.
Defined.

Lemma main_flag : forall json_loads inp s,
  (current_step s <> Input -> quiz_generated s = true) ->
  current_step (main json_loads inp s) <> Input ->
  quiz_generated (main json_loads inp s) = true.
Proof.
  intros json_loads inp s Hs. unfold main.
  assert (Hgen : current_step s = Input ->
                 current_step (on_generate json_loads inp s) <> Input ->
                 quiz_generated (on_generate json_loads inp s) = true).
  { intros Hstep. unfold on_generate.
    destruct (truthy (topic inp) && _); [|congruence].
    destruct (key_available _); [|congruence].
    destruct (snd _); cbn [current_step quiz_generated]; congruence. }
  destruct (current_step s) eqn:Hstep.
  - destruct (clicked inp); cbn [reset current_step]; try congruence;
      now apply Hgen.
  - assert (Hf : quiz_generated s = true) by (apply Hs; discriminate).
    destruct (questions s); [destruct (clicked inp); cbn; congruence|].
    destruct (renders _); destruct (clicked inp);
      cbn [reset goto current_step quiz_generated]; congruence.
  - assert (Hf : quiz_generated s = true) by (apply Hs; discriminate).
    destruct (clicked inp);
      cbn [reset goto current_step quiz_generated]; congruence.
Qed.

(** On the generated page and on the saved page the flag
    [quiz_generated] is set and the session holds one question at least,
    so the export counts one question at least. *)
Theorem off_input_page_quiz_generated : forall json_loads s,
  reachable json_loads s ->
  current_step s <> Input ->
  quiz_generated s = true /\ questions s <> []
  /\ (1 <= List.length (questions s))%nat.
Proof.
  intros json_loads s H Hstep.
  assert (Hq : questions s <> [])
    by exact (reachable_holds_questions H Hstep).
  split; [|split; [exact Hq|]].
  - clear Hq. revert Hstep. induction H as [|s s' _ IH [inp <-]].
    + intros Hstep. now contradiction Hstep.
    + apply main_flag. exact IH.
  - destruct (questions s); [congruence | simpl; lia].
Qed.

Lemma off_input_page_quiz_generated_witness :
  quiz_generated
    (main RefJson.loads (click_only Save_Quiz)
          (main RefJson.loads EXAMPLE_RUN initialize_session_state)) = true.
Proof.
  refine (proj1 (@off_input_page_quiz_generated RefJson.loads _ _ _)).
  - apply reachable_step
      with (s := main RefJson.loads EXAMPLE_RUN initialize_session_state).
    + apply reachable_step with (s := initialize_session_state).
      * apply reachable_init.
      * exists EXAMPLE_RUN. reflexivity.
    + exists (click_only Save_Quiz). reflexivity.
  - vm_compute. discriminate.
Defined.

(** A run that no button started, and a run started by the edit button,
    leave the session as it is. *)
Theorem rerun_changes_nothing : forall json_loads inp s,
  clicked inp = No_Click \/ clicked inp = Edit_Questions ->
  main json_loads inp s = s.
Proof.
  intros json_loads inp s [Hc|Hc]; unfold main; rewrite Hc;
    destruct (current_step s); try reflexivity;
    destruct (questions s); try reflexivity;
    destruct (renders _); reflexivity.
Qed.

Lemma rerun_changes_nothing_witness :
  main RefJson.loads (click_only No_Click) EXAMPLE_QUIZ = EXAMPLE_QUIZ.
Proof.
  apply (@rerun_changes_nothing RefJson.loads (click_only No_Click)).
  left. reflexivity.
Defined.

(** The generate button without a topic, or without a key, leaves the
    session as it is: the questions of an earlier quiz stay. *)
Theorem generate_without_topic_or_key : forall json_loads inp s,
  current_step s = Input ->
  clicked inp = Generate_Questions ->
  truthy (topic inp) = false \/ key_available (sidebar_key inp) = false ->
  main json_loads inp s = s.
Proof.
  intros json_loads inp s Hstep Hc Hguard. unfold main.
  rewrite Hc, Hstep. unfold on_generate. rewrite key_or_same.
  destruct Hguard as [-> | ->]; [reflexivity|].
  now rewrite andb_false_r.
Qed.

Lemma generate_without_topic_or_key_witness :
  main RefJson.loads (click_only Generate_Questions)
       (goto Input EXAMPLE_QUIZ)
  = goto Input EXAMPLE_QUIZ.
Proof.
  apply (@generate_without_topic_or_key RefJson.loads
           (click_only Generate_Questions)); try reflexivity.
  left. reflexivity.
Defined.

(** The generate button with a topic and a key, when the generation gives
    nothing, leaves the wizard on the input page and empties the session:
    the questions of an earlier quiz are gone. *)
Theorem failed_generation_discards_questions : forall json_loads inp s,
  current_step s = Input ->
  clicked inp = Generate_Questions ->
  truthy (topic inp) = true ->
  key_available (sidebar_key inp) = true ->
  snd (generate_questions_with_gemini json_loads (sidebar_key inp)
                                      (response inp)) = [] ->
  main json_loads inp s
  = {| questions := []; quiz_generated := quiz_generated s;
       current_step := Input |}.
Proof.
  intros json_loads inp s Hstep Hc Ht Hk Hq. unfold main.
  rewrite Hc, Hstep. unfold on_generate. rewrite key_or_same, Ht, Hk.
  cbn [andb]. rewrite Hq. now rewrite Hstep.
Qed.

Lemma failed_generation_discards_questions_witness :
  questions (goto Input EXAMPLE_QUIZ) = [EXAMPLE_ONE_RECORD]
  /\ main RefJson.loads EXAMPLE_FAILING_RUN (goto Input EXAMPLE_QUIZ)
     = {| questions := []; quiz_generated := true; current_step := Input |}.
Proof.
  split; [reflexivity|].
  apply (@failed_generation_discards_questions RefJson.loads
           EXAMPLE_FAILING_RUN (goto Input EXAMPLE_QUIZ)); reflexivity.
Defined.

(** When the question of a record cannot be sliced, line 227 raises while
    the generated page is drawn and its buttons are never reached: every
    run leaves the session as it is, but the run the sidebar's button
    starts. *)
Theorem broken_page_is_stuck : forall json_loads inp s,
  current_step s = Generated ->
  renders (questions s) = false ->
  clicked inp <> Start_New_Quiz ->
  main json_loads inp s = s.
Proof.
  intros json_loads inp s Hstep Hr Hc. unfold main. rewrite Hstep, Hr.
  destruct (clicked inp); try reflexivity; try (now contradiction Hc);
    destruct (questions s); reflexivity.
Qed.

Lemma broken_page_is_stuck_witness :
  current_step (main RefJson.loads EXAMPLE_NUMBER_RUN initialize_session_state)
  = Generated
  /\ main RefJson.loads (click_only Save_Quiz)
          (main RefJson.loads EXAMPLE_NUMBER_RUN initialize_session_state)
     = main RefJson.loads EXAMPLE_NUMBER_RUN initialize_session_state.
Proof.
  split; [vm_compute; reflexivity|].
  apply (@broken_page_is_stuck RefJson.loads (click_only Save_Quiz)).
  - vm_compute. reflexivity.
  - vm_compute. reflexivity.
  - discriminate.
Defined.



(** ** The session before it is initialised *)

(** Lines 19 to 25 fill in the keys that are missing and nothing else: a
    new session becomes the initial session, a session that has its three
    keys is left as it is, a key that is there keeps its value, and a
    second initialisation changes nothing. *)
Theorem initialize_fills_missing_keys : forall r,
  initialize_raw_session (initialize_raw_session r) = initialize_raw_session r
  /\ (exists s, initialize_raw_session r = to_raw s)
  /\ (forall qs, raw_questions r = Some qs ->
                 raw_questions (initialize_raw_session r) = Some qs)
  /\ (forall b, raw_quiz_generated r = Some b ->
                raw_quiz_generated (initialize_raw_session r) = Some b)
  /\ (forall st, raw_current_step r = Some st ->
                 raw_current_step (initialize_raw_session r) = Some st)
  /\ initialize_raw_session NEW_SESSION = to_raw initialize_session_state
  /\ (forall s, initialize_raw_session (to_raw s) = to_raw s).
Proof.
  intros [[qs|] [b|] [st|]]; unfold initialize_raw_session, to_raw;
    cbn [raw_questions raw_quiz_generated raw_current_step setdefault];
    repeat split; try congruence;
    try (eexists {| questions := _; quiz_generated := _; current_step := _ |};
         reflexivity).
Qed.

(** ** The names of the downloads *)

Lemma replace_spaces_no_space : forall title, ~ In 32 (replace_spaces title).
Proof.
  intros title H. unfold replace_spaces in H.
  apply in_map_iff in H as (c & Hc & _).
  destruct (c =? 32) eqn:E; [discriminate|].
  apply N.eqb_neq in E. congruence.
Qed.

Lemma replace_spaces_fix : forall title,
  ~ In 32 title -> replace_spaces title = title.
Proof.
  induction title as [|c title IH]; intros H; [reflexivity|].
  cbn [replace_spaces List.map]. destruct (c =? 32) eqn:E.
  - apply N.eqb_eq in E. subst c. contradiction H. now left.
  - f_equal. apply IH. intros Hin. apply H. now right.
Qed.

(** The names of the two downloads hold no space, are as long as the title
    and the extension together, and are the title followed by the
    extension when the title holds no space. *)
Theorem download_names : forall quiz_title,
  ~ In 32 (filename_json quiz_title)
  /\ ~ In 32 (filename_txt quiz_title)
  /\ List.length (filename_json quiz_title) = (List.length quiz_title + 5)%nat
  /\ List.length (filename_txt quiz_title) = (List.length quiz_title + 4)%nat
  /\ (~ In 32 quiz_title ->
      filename_json quiz_title = quiz_title ++ lit ".json"
      /\ filename_txt quiz_title = quiz_title ++ lit ".txt").
Proof.
  intros quiz_title. unfold filename_json, filename_txt.
  assert (Hno := replace_spaces_no_space quiz_title).
  repeat split.
  - intros H. apply in_app_or in H as [H|H]; [now apply Hno|].
    vm_compute in H. intuition discriminate.
  - intros H. apply in_app_or in H as [H|H]; [now apply Hno|].
    vm_compute in H. intuition discriminate.
  - rewrite length_app. unfold replace_spaces. now rewrite length_map.
  - rewrite length_app. unfold replace_spaces. now rewrite length_map.
  - now rewrite replace_spaces_fix.
  - now rewrite replace_spaces_fix.
Qed.

(** ** The text download *)

Lemma option_lines_explicit :
  forall py_str_other float_eq_index q answer options j,
    getitem q KEY_CORRECT_ANSWER = Done answer ->
    N.of_nat (j + List.length options) <= 1114047 ->
    option_lines py_str_other float_eq_index q j options
    = Done (concat (List.map
         (fun k => option_line py_str_other
                     (if index_eq float_eq_index (j + k) answer
                      then MARK_CORRECT else MARK_OTHER)
                     (65 + N.of_nat (j + k)) (nth k options VNone))
         (seq 0 (List.length options)))).
Proof.
  intros py_str_other float_eq_index q answer options.
  induction options as [|o rest IH]; intros j Ha Hn.
  - reflexivity.
  - cbn [option_lines List.length]. rewrite Ha. cbn [and_then].
    unfold chr.
    assert (Hle : (65 + N.of_nat j <=? 1114111) = true).
    { apply N.leb_le. cbn [List.length] in Hn. lia. }
    rewrite Hle. cbn [and_then].
    rewrite (IH (S j) Ha) by (cbn [List.length] in Hn; lia).
    cbn [and_then]. rewrite <- cons_seq, <- seq_shift.
    cbn [List.map concat nth]. rewrite map_map, Nat.add_0_r.
    do 3 f_equal. apply map_ext. intros k.
    now rewrite Nat.add_succ_r.
Qed.

(** In the text download, the options of a record whose [correct_answer]
    is an instance of [int] within bounds are written one per line, in
    their order, lettered from [A] on, and the check mark is on the line
    of the index [correct_answer] and on no other; a [true] marks the
    second option and a [false] the first. *)
Theorem one_option_marked :
  forall py_str_other float_eq_index d options answer z,
    dict_get KEY_CORRECT_ANSWER d = Some answer ->
    int_value answer = Some z ->
    (0 <= z < Z.of_nat (List.length options))%Z ->
    N.of_nat (List.length options) <= 1114047 ->
    option_lines py_str_other float_eq_index (VDict d) 0 options
    = Done (concat (List.map
         (fun k => option_line py_str_other
                     (if (k =? Z.to_nat z)%nat
                      then MARK_CORRECT else MARK_OTHER)
                     (65 + N.of_nat k) (nth k options VNone))
         (seq 0 (List.length options))))
    /\ (Z.to_nat z < List.length options)%nat.
Proof.
  intros py_str_other float_eq_index d options answer z Ha Hz Hr Hn.
  split; [|lia].
  rewrite (@option_lines_explicit py_str_other float_eq_index
             (VDict d) answer options 0%nat).
  - f_equal. f_equal. apply map_ext. intros k. cbn [plus].
    replace (index_eq float_eq_index k answer) with (k =? Z.to_nat z)%nat;
      [reflexivity|].
    destruct answer as [|[|]| | | | |]; try discriminate;
      cbn [int_value] in Hz; injection Hz as <-; cbn [index_eq].
    + reflexivity.
    + reflexivity.
    + destruct (Nat.eqb_spec k (Z.to_nat z0));
        destruct (Z.eqb_spec (Z.of_nat k) z0); try reflexivity; lia.
  - cbn [getitem]. now rewrite Ha.
  - exact Hn.
Qed.

Lemma one_option_marked_witness :
  option_lines (fun _ => lit "?") (fun _ _ => false)
               EXAMPLE_ONE_RECORD 0
               [VStr (lit "A"); VStr (lit "B"); VStr (lit "C")]
  = Done (lit "  [ ] A. A" ++ NEWLINE
            ++ lit "  " ++ MARK_CORRECT ++ lit " B. B" ++ NEWLINE
            ++ lit "  [ ] C. C" ++ NEWLINE).
Proof.
  refine (eq_trans
    (proj1 (@one_option_marked (fun _ => lit "?") (fun _ _ => false)
              _ [VStr (lit "A"); VStr (lit "B"); VStr (lit "C")]
              (VInt 1) 1%Z _ _ _ _)) _).
  - reflexivity.
  - reflexivity.
  - simpl. lia.
  - vm_compute. discriminate.
  - vm_compute. reflexivity.
Defined.

Lemma question_block_done :
  forall py_str_other float_eq_index i q,
    record_as_built q -> options_nameable q ->
    exists block,
      question_block py_str_other float_eq_index i q = Done block.
Proof.
  intros py_str_other float_eq_index i q
         (d & options & answer & -> & Hq & Ho & _ & Ha & _) Hn.
  apply dict_contains_get in Hq as [question Hq].
  unfold question_block. cbn [getitem]. rewrite Hq, Ho.
  cbn [and_then enumerate iterate].
  rewrite (@option_lines_explicit py_str_other float_eq_index
             (VDict d) answer options 0%nat).
  - cbn [and_then]. eexists. reflexivity.
  - cbn [getitem]. now rewrite Ha.
  - exact (Hn d options eq_refl Ho).
Qed.

Lemma question_blocks_done :
  forall py_str_other float_eq_index records i,
    Forall record_as_built records ->
    Forall options_nameable records ->
    exists blocks,
      List.length blocks = List.length records
      /\ (forall k q, nth_error records k = Some q ->
            exists block,
              nth_error blocks k = Some block
              /\ question_block py_str_other float_eq_index (i + k) q
                 = Done block)
      /\ question_blocks py_str_other float_eq_index i records
         = Done (concat blocks).
Proof.
  intros py_str_other float_eq_index records.
  induction records as [|q records IH]; intros i Hb Hn.
  - exists []. repeat split. intros [|k] q H; discriminate.
  - inversion Hb as [|? ? Hq Hrest]; subst.
    inversion Hn as [|? ? Hnq Hnrest]; subst.
    destruct (question_block_done py_str_other float_eq_index i Hq Hnq)
      as [block Hblock].
    destruct (IH (S i) Hrest Hnrest) as (blocks & Hlen & Hnth & Hall).
    exists (block :: blocks). repeat split.
    + cbn [List.length]. now rewrite Hlen.
    + intros [|k] q' H; cbn [nth_error] in *.
      * injection H as <-. exists block. rewrite Nat.add_0_r. auto.
      * destruct (Hnth k q' H) as (b & Hb1 & Hb2). exists b.
        rewrite Nat.add_succ_r. auto.
    + cbn [question_blocks]. rewrite Hblock. cbn [and_then].
      rewrite Hall. reflexivity.
Qed.

(** For records that went through the loop of lines 75 to 90, the text
    download is written without an exception: it is the title, a line of
    50 equals signs and an empty line, followed by one block for each
    record in their order, the blocks being numbered from 1. *)
Theorem text_download_of_validated_records :
  forall py_str_other float_eq_index quiz_title records,
    Forall record_as_built records ->
    Forall options_nameable records ->
    exists blocks,
      text_content py_str_other float_eq_index quiz_title records
      = Done (quiz_title ++ NEWLINE ++ repeat 61 50 ++ NEWLINE ++ NEWLINE
                ++ concat blocks)
      /\ List.length blocks = List.length records
      /\ forall k q, nth_error records k = Some q ->
           exists block,
             nth_error blocks k = Some block
             /\ question_block py_str_other float_eq_index (S k) q
                = Done block.
Proof.
  intros py_str_other float_eq_index quiz_title records Hb Hn.
  destruct (question_blocks_done py_str_other float_eq_index 1 Hb Hn)
    as (blocks & Hlen & Hnth & Hall).
  exists blocks. repeat split.
  - unfold text_content. rewrite Hall. cbn [and_then].
    unfold text_header. now rewrite <- !app_assoc.
  - exact Hlen.
  - intros k q H. destruct (Hnth k q H) as (b & H1 & H2).
    exists b. auto.
Qed.

Lemma text_download_of_validated_records_witness :
  exists blocks,
    text_content (fun _ => lit "?") (fun _ _ => false) (lit "My Quiz")
                 [EXAMPLE_ONE_RECORD]
    = Done (lit "My Quiz" ++ NEWLINE ++ repeat 61 50 ++ NEWLINE ++ NEWLINE
              ++ concat blocks)
    /\ List.length blocks = 1%nat.
Proof.
  destruct (@text_download_of_validated_records
              (fun _ => lit "?") (fun _ _ => false) (lit "My Quiz")
              [EXAMPLE_ONE_RECORD])
    as (blocks & H1 & H2 & _).
  - constructor; [|constructor].
    exists [ (KEY_QUESTION, VStr (lit "Q1"));
             (KEY_OPTIONS,
              VList [VStr (lit "A"); VStr (lit "B"); VStr (lit "C")]);
             (KEY_CORRECT_ANSWER, VInt 1);
             (KEY_EXPLANATION, VStr EXPLANATION_PLACEHOLDER) ],
           [VStr (lit "A"); VStr (lit "B"); VStr (lit "C")], (VInt 1).
    repeat split; try reflexivity.
    + simpl. lia.
    + intros _. exists 1%Z. split; [reflexivity | simpl; lia].
  - constructor; [|constructor].
    intros d options Hd Ho. injection Hd as <-. injection Ho as <-.
    vm_compute. discriminate.
  - exists blocks. split; [exact H1 | exact H2].
Defined.

(** The block of a record says its question after its number, then its
    options, then its explanation, then an empty line; a record that came
    out of the loop always has the explanation line. *)
Theorem question_block_layout :
  forall py_str_other float_eq_index i d question options answer explanation,
    dict_get KEY_QUESTION d = Some question ->
    dict_get KEY_OPTIONS d = Some (VList options) ->
    dict_get KEY_CORRECT_ANSWER d = Some answer ->
    dict_get KEY_EXPLANATION d = Some explanation ->
    N.of_nat (List.length options) <= 1114047 ->
    exists lines,
      option_lines py_str_other float_eq_index (VDict d) 0 options
      = Done lines
      /\ question_block py_str_other float_eq_index i (VDict d)
         = Done (lit "Question " ++ str_of_N (N.of_nat i) ++ lit ": "
                   ++ format_value py_str_other question ++ NEWLINE
                   ++ lines
                   ++ lit "  Explanation: "
                   ++ format_value py_str_other explanation ++ NEWLINE
                   ++ NEWLINE).
Proof.
  intros py_str_other float_eq_index i d question options answer explanation
         Hq Ho Ha He Hn.
  assert (Hlines := @option_lines_explicit py_str_other float_eq_index
                      (VDict d) answer options 0%nat).
  cbn [getitem] in Hlines. rewrite Ha in Hlines.
  specialize (Hlines eq_refl Hn).
  eexists. split; [exact Hlines|].
  unfold question_block. cbn [getitem]. rewrite Hq, Ho.
  cbn [and_then enumerate iterate]. rewrite Hlines. cbn [and_then].
  unfold explanation_line, subscript.
  assert (Hc : dict_contains KEY_EXPLANATION d = true)
    by (apply dict_contains_get; eauto).
  rewrite Hc, He. now rewrite <- !app_assoc.
Qed.

Lemma question_block_layout_witness :
  exists lines,
    question_block (fun _ => lit "?") (fun _ _ => false) 1 EXAMPLE_ONE_RECORD
    = Done (lit "Question 1: Q1" ++ NEWLINE ++ lines
              ++ lit "  Explanation: Explanation not provided." ++ NEWLINE
              ++ NEWLINE).
Proof.
  destruct (@question_block_layout (fun _ => lit "?") (fun _ _ => false) 1%nat
              [ (KEY_QUESTION, VStr (lit "Q1"));
                (KEY_OPTIONS,
                 VList [VStr (lit "A"); VStr (lit "B"); VStr (lit "C")]);
                (KEY_CORRECT_ANSWER, VInt 1);
                (KEY_EXPLANATION, VStr EXPLANATION_PLACEHOLDER) ]
              (VStr (lit "Q1"))
              [VStr (lit "A"); VStr (lit "B"); VStr (lit "C")]
              (VInt 1) (VStr EXPLANATION_PLACEHOLDER)
              eq_refl eq_refl eq_refl eq_refl)
    as (lines & _ & H).
  - vm_compute. discriminate.
  - exists lines. exact H.
Defined.

(** ** The prompt *)

(** Content that is empty or all white space is left out of the prompt,
    which is then the prompt of an empty content; any other content is in
    the prompt as it was typed, white space around it included, between
    the format and the closing sentence. *)
Theorem blank_content_left_out :
  forall topic num_questions difficulty content_input,
    (strip content_input = [] ->
     build_prompt topic num_questions difficulty content_input
     = build_prompt topic num_questions difficulty [])
    /\ (strip content_input <> [] ->
        build_prompt topic num_questions difficulty content_input
        = prompt_head topic num_questions difficulty
            ++ lit "Base the questions on this specific content:" ++ NEWLINE
            ++ content_input ++ NEWLINE ++ NEWLINE ++ PROMPT_TAIL
        /\ build_prompt topic num_questions difficulty content_input
           <> build_prompt topic num_questions difficulty []).
Proof.
  intros topic num_questions difficulty content_input.
  unfold build_prompt. split.
  - intros ->. reflexivity.
  - intros Hne. destruct (strip content_input) as [|c r] eqn:E;
      [congruence|].
    cbn [truthy strip lstrip rstrip]. unfold prompt_content. split.
    + now rewrite <- !app_assoc.
    + intros H. rewrite <- app_assoc in H.
      apply app_inv_head in H.
      apply (f_equal (@List.length char)) in H.
      rewrite !length_app in H. cbn [List.length NEWLINE] in H. lia.
Qed.
